(** * A Naive Bayes spam filter: shallow embedding of [naive_bayes.py]

    The development follows the Python class [NaiveBayes] method by method.

    - Python [str] values are [string]s (sequences of [ascii] characters).
    - Python [set] and [dict] values are stdpp's [gset string] and
      [gmap string nat]; iterating over a set visits [elements] (some fixed
      order without repetition, as CPython visits its hash table).
    - Python [int] values that come from [len] and from counting are [nat].
    - Python exceptions are an error value threaded through a small
      result monad.
    - Python [float] values: [predict_in] leaves the arithmetic open (any
      [Py.arith], binary64 with numpy's logarithm being one), and takes the
      order in which a set is visited as a parameter. [Float] is the
      arithmetic without rounding: extended reals, with the IEEE special
      values (infinities, not-a-number) and exact finite values; [predict]
      is [predict_in] at [Float] and at the order of [elements], and serves
      the properties that rounding and order do not touch.
    - The operating system is a record [os]: what [open(..).read()] and
      [os.listdir] answer for each path. *)

From Stdlib Require Import Reals Lra Lia.
From stdpp Require Import base gmap strings list fin_maps fin_sets.

Local Open Scope string_scope.

(** ** Exceptions and the result monad *)

Inductive exn : Type :=
| ZeroDivisionError
| AssertionError
| OSError. (* whatever [open], [read] or [os.listdir] raise *)

Inductive result (A : Type) : Type :=
| Ok (a : A)
| Raise (e : exn).
Arguments Ok {A} a.
Arguments Raise {A} e.

#[global] Instance result_ret : MRet result := fun A a => Ok a.
#[global] Instance result_bind : MBind result := fun A B k m =>
  match m with
  | Ok a => k a
  | Raise e => Raise e
  end.

(** [for x in xs: s = body x s], stopping at the first exception. *)
Fixpoint for_each {A S : Type} (body : A -> S -> result S) (xs : list A) (s : S)
  : result S :=
  match xs with
  | [] => Ok s
  | x :: rest => s' ← body x s; for_each body rest s'
  end.

(** ** Python string methods used by the tokenizer *)

Module Str.

Definition CR : Ascii.ascii := Ascii.ascii_of_nat 13.
Definition LF : Ascii.ascii := Ascii.ascii_of_nat 10.
Definition SP : Ascii.ascii := Ascii.ascii_of_nat 32.

(** [s[n:]]: the slice is empty when [s] has at most [n] characters. *)
Fixpoint slice_from (n : nat) (s : string) : string :=
  match n, s with
  | O, _ => s
  | S _, EmptyString => EmptyString
  | S n', String _ s' => slice_from n' s'
  end.

(** [s.replace(old, new)] for a one-character [old]. *)
Fixpoint replace (old : Ascii.ascii) (new : string) (s : string) : string :=
  match s with
  | EmptyString => EmptyString
  | String c s' =>
      if Ascii.eqb c old then new ++ replace old new s'
      else String c (replace old new s')
  end.

(** [s.split(sep)] for a one-character [sep]: the pieces between the
    separators, empty pieces included; never the empty list. *)
Fixpoint split (sep : Ascii.ascii) (s : string) : list string :=
  match s with
  | EmptyString => [EmptyString]
  | String c s' =>
      if Ascii.eqb c sep then EmptyString :: split sep s'
      else match split sep s' with
           | w :: ws => String c w :: ws
           | [] => [String c EmptyString]
           end
  end.

(** [sep.join(words)] *)
Fixpoint join (sep : string) (words : list string) : string :=
  match words with
  | [] => EmptyString
  | [w] => w
  | w :: ws => w ++ sep ++ join sep ws
  end.

End Str.

(** ** Python floats *)

Module Float.

Inductive float : Type :=
| NaN
| NegInf
| PosInf
| Fin (r : R).

(** [float(n)] for a Python int that is a natural number *)
Definition of_nat (n : nat) : float := Fin (INR n).

(** [a / b] on Python ints: true division *)
Definition truediv (a b : nat) : result float :=
  if Nat.eqb b 0 then Raise ZeroDivisionError
  else Ok (Fin (INR a / INR b)).

(** [x + y] on floats *)
Definition add (x y : float) : float :=
  match x, y with
  | NaN, _ | _, NaN => NaN
  | NegInf, PosInf | PosInf, NegInf => NaN
  | NegInf, _ | _, NegInf => NegInf
  | PosInf, _ | _, PosInf => PosInf
  | Fin a, Fin b => Fin (a + b)
  end.

(** [x > y] on floats; false as soon as one side is not a number *)
Definition gt (x y : float) : bool :=
  match x, y with
  | NaN, _ | _, NaN => false
  | NegInf, _ => false
  | _, PosInf => false
  | PosInf, _ => true
  | Fin _, NegInf => true
  | Fin a, Fin b => if Rlt_dec b a then true else false
  end.

(** [np.log(x)] under numpy's default error state: a warning, no
    exception, for zero and for negative arguments *)
Definition log (x : float) : float :=
  match x with
  | NaN => NaN
  | NegInf => NaN
  | PosInf => PosInf
  | Fin r =>
      if Rlt_dec 0 r then Fin (ln r)
      else if Req_dec_T r 0 then NegInf
      else NaN
  end.

(** The order of the extended reals, as a proposition: [lt x y] when
    [x] is strictly below [y]. *)
Definition lt (x y : float) : Prop :=
  match x, y with
  | NegInf, Fin _ | NegInf, PosInf | Fin _, PosInf => True
  | Fin a, Fin b => (a < b)%R
  | _, _ => False
  end.

End Float.

Abbreviation float := Float.float.

(** ** The operating system *)

Record os : Type := {
  (** [open(filename, 'r').read()]; [None] when it raises *)
  read_text : string -> option string;
  (** [os.listdir(path)]; [None] when it raises *)
  listdir : string -> option (list string)
}.

(** [os.path.join(a, *p)] of [posixpath] *)
Module Path.

Fixpoint endswith_sep (s : string) : bool :=
  match s with
  | EmptyString => false
  | String c EmptyString => Ascii.eqb c (Ascii.ascii_of_nat 47)
  | String _ s' => endswith_sep s'
  end.

Definition join1 (path b : string) : string :=
  if String.prefix "/" b then b
  else if String.eqb path "" || endswith_sep path then path ++ b
  else path ++ "/" ++ b.

Definition join (a : string) (p : list string) : string :=
  foldl join1 a p.

End Path.

(** ** The classifier *)

Record NaiveBayes : Type := {
  num_train_hams : nat;
  num_train_spams : nat;
  word_counts_spam : gmap string nat;
  word_counts_ham : gmap string nat
}.

(** The two label attributes are assigned once, in [__init__], and never
    again: they are constants of the class. *)
Definition HAM_LABEL : string := "ham".
Definition SPAM_LABEL : string := "spam".

(** [__init__] *)
Definition init : NaiveBayes :=
  {| num_train_hams := 0; num_train_spams := 0;
     word_counts_spam := ∅; word_counts_ham := ∅ |}.

(** [assert b] *)
Definition assert (b : bool) : result unit :=
  if b then Ok tt else Raise AssertionError.

(** [set(l)] *)
Definition set_of_list (l : list string) : gset string := list_to_set l.

(** [d.get(k, 0)] *)
Definition get0 (d : gmap string nat) (k : string) : nat := default 0 (d !! k).

Section Methods.

Context (sys : os).

Definition os_listdir (path : string) : result (list string) :=
  match listdir sys path with
  | Some names => Ok names
  | None => Raise OSError
  end.

(** One of the four loops of [load_data]: the names of a directory, each
    joined to the directory's path, appended one by one. *)
Definition collect (path group label : string) : result (list string) :=
  names ← os_listdir (Path.join path [group; label]);
  Ok (foldl (fun acc filename => (acc ++ [Path.join path [group; label; filename]])%list)
            [] names).

Definition load_data (path : string)
  : result (list string * list string * list string * list string) :=
  root ← os_listdir path;
  _ ← assert (bool_decide (set_of_list root = set_of_list ["test"; "train"]));
  test ← os_listdir (Path.join path ["test"]);
  _ ← assert (bool_decide (set_of_list test = set_of_list ["ham"; "spam"]));
  train ← os_listdir (Path.join path ["train"]);
  _ ← assert (bool_decide (set_of_list train = set_of_list ["ham"; "spam"]));
  train_hams ← collect path "train" "ham";
  train_spams ← collect path "train" "spam";
  test_hams ← collect path "test" "ham";
  test_spams ← collect path "test" "spam";
  Ok (train_hams, train_spams, test_hams, test_spams).

Definition word_set (filename : string) : result (gset string) :=
  match read_text sys filename with
  | None => Raise OSError
  | Some content =>
      let text := Str.slice_from 9 content in
      let text := Str.replace Str.CR "" text in
      let text := Str.replace Str.LF " " text in
      let words := Str.split Str.SP text in
      Ok (set_of_list words)
  end.

(** The body of the inner loop of [get_counts]. *)
Definition count_word (word : string) (dict1 : gmap string nat)
  : gmap string nat :=
  match dict1 !! word with
  | Some c => <[word := c + 1]> dict1
  | None => <[word := 1]> dict1
  end.

Definition get_counts (filenames : list string) : result (gmap string nat) :=
  for_each
    (fun file dict1 =>
       set1 ← word_set file;
       for_each (fun word dict1 => Ok (count_word word dict1))
                (elements set1) dict1)
    filenames ∅.

(** [fit] assigns the attributes one after the other, so an exception
    leaves the assignments made so far: the state comes back next to the
    outcome. *)
Definition fit (self : NaiveBayes) (train_hams train_spams : list string)
  : NaiveBayes * result unit :=
  let self := {| num_train_hams := length train_hams;
                 num_train_spams := num_train_spams self;
                 word_counts_spam := word_counts_spam self;
                 word_counts_ham := word_counts_ham self |} in
  let self := {| num_train_hams := num_train_hams self;
                 num_train_spams := length train_spams;
                 word_counts_spam := word_counts_spam self;
                 word_counts_ham := word_counts_ham self |} in
  match get_counts train_spams with
  | Raise e => (self, Raise e)
  | Ok d =>
      let self := {| num_train_hams := num_train_hams self;
                     num_train_spams := num_train_spams self;
                     word_counts_spam := d;
                     word_counts_ham := word_counts_ham self |} in
      match get_counts train_hams with
      | Raise e => (self, Raise e)
      | Ok d' =>
          ({| num_train_hams := num_train_hams self;
              num_train_spams := num_train_spams self;
              word_counts_spam := word_counts_spam self;
              word_counts_ham := d' |}, Ok tt)
      end
  end.

(** One of the two loops of [predict]:
    [acc += np.log((counts.get(word, 0) + 1) / (n + 2))] for each word. *)
Definition log_sum (counts : gmap string nat) (n : nat) (set2 : gset string)
  : result float :=
  for_each
    (fun word acc =>
       q ← Float.truediv (get0 counts word + 1) (n + 2);
       Ok (Float.add acc (Float.log q)))
    (elements set2) (Float.of_nat 0).

Definition predict (self : NaiveBayes) (filename : string) : result string :=
  p_ham ← Float.truediv (num_train_hams self)
                        (num_train_hams self + num_train_spams self);
  p_spam ← Float.truediv (num_train_spams self)
                         (num_train_hams self + num_train_spams self);
  set2 ← word_set filename;
  spam_sum ← log_sum (word_counts_spam self) (num_train_spams self) set2;
  ham_sum ← log_sum (word_counts_ham self) (num_train_hams self) set2;
  let spam_sum := Float.add spam_sum (Float.log p_spam) in
  let ham_sum := Float.add ham_sum (Float.log p_ham) in
  if Float.gt spam_sum ham_sum then Ok SPAM_LABEL else Ok HAM_LABEL.

(** One of the two loops of [accuracy]. *)
Definition count_correct (self : NaiveBayes) (label : string)
    (filenames : list string) (total_correct : nat) : result nat :=
  for_each
    (fun filename total_correct =>
       l ← predict self filename;
       Ok (if String.eqb l label then total_correct + 1 else total_correct))
    filenames total_correct.

Definition accuracy (self : NaiveBayes) (hams spams : list string)
  : result float :=
  let total_correct := 0 in
  let total_datapoints := length hams + length spams in
  total_correct ← count_correct self HAM_LABEL hams total_correct;
  total_correct ← count_correct self SPAM_LABEL spams total_correct;
  Float.truediv total_correct total_datapoints.

End Methods.

(** ** Concrete operating systems, for examples *)

Fixpoint assoc {V : Type} (k : string) (l : list (string * V)) : option V :=
  match l with
  | [] => None
  | (k', v) :: rest => if String.eqb k k' then Some v else assoc k rest
  end.

(** The files and the directories of a small file system, by path. *)
Definition mk_os (files : list (string * string))
    (dirs : list (string * list string)) : os :=
  {| read_text := fun p => assoc p files; listdir := fun p => assoc p dirs |}.

(** ** The quantities the specification speaks of *)

(** The document can be read. *)
Definition readable (sys : os) (filename : string) : Prop :=
  is_Some (read_text sys filename).

(** Token [t] is in the token set of the document. *)
Definition contains (sys : os) (t : string) (filename : string) : bool :=
  match word_set sys filename with
  | Ok X => bool_decide (t ∈ X)
  | Raise _ => false
  end.

(** The number of documents of the collection whose token set has [t]; a
    document listed twice counts twice. *)
Definition doc_count (sys : os) (t : string) (filenames : list string) : nat :=
  length (List.filter (contains sys t) filenames).

(** A frequency table has no entry for a count of 0. *)
Definition table_entry (n : nat) : option nat :=
  if Nat.eqb n 0 then None else Some n.

(** The smoothed log-likelihood of one token:
    ln((count(t) + 1) / (num_train + 2)), absent tokens counting 0. *)
Definition token_term (counts : gmap string nat) (n : nat) (t : string) : R :=
  ln ((INR (get0 counts t) + 1) / (INR n + 2)).

(** The sum of [g t] over the tokens [t] of a set. *)
Definition sum_over (X : gset string) (g : string → R) : R :=
  foldr (fun t acc => (g t + acc)%R) 0%R (elements X).

(** The score of a label with [n] training documents out of [total]:
    ln(n / total) plus the sum of the token terms; the logarithm of a zero
    prior is minus infinity. *)
Definition score (counts : gmap string nat) (n total : nat) (X : gset string)
  : float :=
  if Nat.eqb n 0 then Float.NegInf
  else Float.Fin (ln (INR n / INR total) + sum_over X (token_term counts n)).

(** The number of documents of the collection that [predict] labels [label]. *)
Definition hits (sys : os) (self : NaiveBayes) (label : string)
    (filenames : list string) : nat :=
  length (List.filter
            (fun f => match predict sys self f with
                      | Ok l => String.eqb l label
                      | Raise _ => false
                      end) filenames).

(** The directory can be listed and holds the expected names, no more and
    no less. *)
Definition lists_exactly (sys : os) (dir : string) (expected : list string)
  : Prop :=
  ∃ names, listdir sys dir = Some names ∧ ∀ x, x ∈ names ↔ x ∈ expected.

(** The root holds exactly the groups "train" and "test", each holds exactly
    the subgroups "ham" and "spam", and each subgroup is a collection. *)
Definition corpus_shape (sys : os) (path : string) : Prop :=
  lists_exactly sys path ["train"; "test"] ∧
  lists_exactly sys (Path.join path ["test"]) ["ham"; "spam"] ∧
  lists_exactly sys (Path.join path ["train"]) ["ham"; "spam"] ∧
  is_Some (listdir sys (Path.join path ["train"; "ham"])) ∧
  is_Some (listdir sys (Path.join path ["train"; "spam"])) ∧
  is_Some (listdir sys (Path.join path ["test"; "ham"])) ∧
  is_Some (listdir sys (Path.join path ["test"; "spam"])).

(** The document identifiers of one subgroup: its names, each joined to the
    subgroup's path. *)
Definition documents (sys : os) (path group label : string) : list string :=
  match listdir sys (Path.join path [group; label]) with
  | Some names =>
      (fun filename => Path.join path [group; label; filename]) <$> names
  | None => []
  end.

(** ** What the tokenizer's steps mean, in the words of the specification *)

Abbreviation chars := String.list_ascii_of_string.

(** Drop the first 9 characters, delete every carriage return, turn every
    newline into a space. *)
Definition normalized (content : string) : list Ascii.ascii :=
  (fun c => if Ascii.eqb c Str.LF then Str.SP else c)
    <$> filter (fun c => c ≠ Str.CR) (drop 9 (chars content)).

(** [words] cuts [text] at its spaces: joining the words with single spaces
    gives the text back, and no word contains a space. *)
Definition is_split (words : list string) (text : list Ascii.ascii) : Prop :=
  words ≠ [] ∧ chars (Str.join " " words) = text ∧
  Forall (fun w => Str.SP ∉ chars w) words.

(** A file system with one readable file. *)
Definition one_mail (content : string) : os :=
  mk_os [("mail.txt", content)] [].

(** A small corpus in the layout [load_data] expects: one training document
    and one test document per label. *)
Definition corpus : os :=
  mk_os
    [("data/train/ham/h1.txt", "Subject: meeting today");
     ("data/train/spam/s1.txt", "Subject: free money");
     ("data/test/ham/h2.txt", "Subject: unknown_word");
     ("data/test/spam/s2.txt", "Subject: free money")]
    [("data/", ["train"; "test"]);
     ("data/train", ["spam"; "ham"]);
     ("data/test", ["ham"; "spam"]);
     ("data/train/ham", ["h1.txt"]);
     ("data/train/spam", ["s1.txt"]);
     ("data/test/ham", ["h2.txt"]);
     ("data/test/spam", ["s2.txt"])].

(** The classifier trained on the training part of [corpus]. *)
Definition trained : NaiveBayes :=
  (fit corpus init ["data/train/ham/h1.txt"] ["data/train/spam/s1.txt"]).1.

(** ** The script *)

(** [if __name__ == '__main__':] the lines printed so far, each as its
    heading and the number formatted after it, and how the script ends.
    [load_data] is called with its default path. *)
Definition main (sys : os) : list (string * float) * result unit :=
  let nbc := init in
  match load_data sys "data/" with
  | Raise e => ([], Raise e)
  | Ok (train_hams, train_spams, test_hams, test_spams) =>
      match fit sys nbc train_hams train_spams with
      | (_, Raise e) => ([], Raise e)
      | (nbc, Ok _) =>
          match accuracy sys nbc train_hams train_spams with
          | Raise e => ([], Raise e)
          | Ok train_accuracy =>
              let out := [("Train Accuracy: ", train_accuracy)] in
              match accuracy sys nbc test_hams test_spams with
              | Raise e => (out, Raise e)
              | Ok test_accuracy =>
                  ((out ++ [("Test  Accuracy: ", test_accuracy)])%list, Ok tt)
              end
          end
      end
  end.

(** ** More quantities *)

(** The path of a directory as a prefix: with a final "/" unless the path
    is empty or has one. *)
Definition dir_prefix (path : string) : string :=
  if String.eqb path "" || Path.endswith_sep path then path else path ++ "/".

(** A name that does not start with "/", as every name [os.listdir] gives. *)
Definition relative (name : string) : Prop := String.prefix "/" name = false.

(** The names of a listing, each after the prefix [dir]. *)
Definition under (dir : string) (names : list string) : list string :=
  (fun name => dir ++ name) <$> names.

(** A corpus with the right layout and empty "test" subgroups. *)
Definition corpus_without_test : os :=
  mk_os
    [("data/train/ham/h1.txt", "Subject: meeting today");
     ("data/train/spam/s1.txt", "Subject: free money")]
    [("data/", ["test"; "train"]);
     ("data/train", ["ham"; "spam"]);
     ("data/test", ["ham"; "spam"]);
     ("data/train/ham", ["h1.txt"]);
     ("data/train/spam", ["s1.txt"]);
     ("data/test/ham", []);
     ("data/test/spam", [])].

(** A corpus with the right layout and empty "train" subgroups. *)
Definition corpus_without_train : os :=
  mk_os
    [("data/test/ham/h2.txt", "Subject: unknown_word")]
    [("data/", ["test"; "train"]);
     ("data/train", ["ham"; "spam"]);
     ("data/test", ["ham"; "spam"]);
     ("data/train/ham", []);
     ("data/train/spam", []);
     ("data/test/ham", ["h2.txt"]);
     ("data/test/spam", [])].

(** ** The loader's failures, by cause *)

(** The directory can be listed and its names are not the expected ones:
    one too many, or one missing. *)
Definition wrong_names (sys : os) (dir : string) (expected : list string)
  : Prop :=
  ∃ names, listdir sys dir = Some names ∧ ¬ ∀ x, x ∈ names ↔ x ∈ expected.

(** Going through the root, "test" and "train" in the order of the three
    assertions, the first directory that is not as expected is one that can
    be listed and has other names. *)
Definition misnamed (sys : os) (path : string) : Prop :=
  wrong_names sys path ["train"; "test"] ∨
  (lists_exactly sys path ["train"; "test"] ∧
   wrong_names sys (Path.join path ["test"]) ["ham"; "spam"]) ∨
  (lists_exactly sys path ["train"; "test"] ∧
   lists_exactly sys (Path.join path ["test"]) ["ham"; "spam"] ∧
   wrong_names sys (Path.join path ["train"]) ["ham"; "spam"]).

(** Going through the root, "test", "train" and then the four subgroups in
    the order the code lists them, the first directory that is not as
    expected is one that cannot be listed. *)
Definition unlistable (sys : os) (path : string) : Prop :=
  listdir sys path = None ∨
  (lists_exactly sys path ["train"; "test"] ∧
   listdir sys (Path.join path ["test"]) = None) ∨
  (lists_exactly sys path ["train"; "test"] ∧
   lists_exactly sys (Path.join path ["test"]) ["ham"; "spam"] ∧
   listdir sys (Path.join path ["train"]) = None) ∨
  (lists_exactly sys path ["train"; "test"] ∧
   lists_exactly sys (Path.join path ["test"]) ["ham"; "spam"] ∧
   lists_exactly sys (Path.join path ["train"]) ["ham"; "spam"] ∧
   (listdir sys (Path.join path ["train"; "ham"]) = None ∨
    listdir sys (Path.join path ["train"; "spam"]) = None ∨
    listdir sys (Path.join path ["test"; "ham"]) = None ∨
    listdir sys (Path.join path ["test"; "spam"]) = None)).

(** ** Prediction in the interpreter's own arithmetic *)

Module Py.

(** What [predict] uses of Python's and numpy's floats, left open: the float
    of an int, the true division of two ints by a divisor other than 0,
    [np.log], [+] and [>]. binary64 with numpy's logarithm is one such
    arithmetic; the extended reals of [Float] are another. *)
Record arith : Type := {
  num : Type;
  of_int : nat → num;
  div : nat → nat → num;
  log : num → num;
  add : num → num → num;
  gt : num → num → bool
}.

End Py.

(** [set(words)] as the loop sees it: the words in the order the set is
    visited. The order depends on the hash seed and on the order of
    insertion; what holds of every order is that each word of the list comes
    once. *)
Definition set_order (py_set : list string → list string) : Prop :=
  ∀ words, NoDup (py_set words) ∧ ∀ w, w ∈ py_set words ↔ w ∈ words.

(** [a / b] on Python ints, in the arithmetic [A] *)
Definition truediv_in (A : Py.arith) (a b : nat) : result (Py.num A) :=
  if Nat.eqb b 0 then Raise ZeroDivisionError else Ok (Py.div A a b).

(** The body of [word_set] up to [words]: the list that [set] receives. *)
Definition word_list (sys : os) (filename : string) : result (list string) :=
  match read_text sys filename with
  | None => Raise OSError
  | Some content =>
      let text := Str.slice_from 9 content in
      let text := Str.replace Str.CR "" text in
      let text := Str.replace Str.LF " " text in
      let words := Str.split Str.SP text in
      Ok words
  end.

(** One of the two loops of [predict], over the set as it is visited. *)
Definition log_sum_in (A : Py.arith) (counts : gmap string nat) (n : nat)
    (set2 : list string) : result (Py.num A) :=
  for_each
    (fun word acc =>
       q ← truediv_in A (get0 counts word + 1) (n + 2);
       Ok (Py.add A acc (Py.log A q)))
    set2 (Py.of_int A 0).

(** [predict], in the arithmetic [A] and with the sets visited as [py_set]
    says; the one set [set2] is visited twice, in the same order. *)
Definition predict_in (A : Py.arith) (py_set : list string → list string)
    (sys : os) (self : NaiveBayes) (filename : string) : result string :=
  p_ham ← truediv_in A (num_train_hams self)
                       (num_train_hams self + num_train_spams self);
  p_spam ← truediv_in A (num_train_spams self)
                        (num_train_hams self + num_train_spams self);
  words ← word_list sys filename;
  let set2 := py_set words in
  spam_sum ← log_sum_in A (word_counts_spam self) (num_train_spams self) set2;
  ham_sum ← log_sum_in A (word_counts_ham self) (num_train_hams self) set2;
  let spam_sum := Py.add A spam_sum (Py.log A p_spam) in
  let ham_sum := Py.add A ham_sum (Py.log A p_ham) in
  if Py.gt A spam_sum ham_sum then Ok SPAM_LABEL else Ok HAM_LABEL.

(** The score of a label in the words of the specification, computed in
    [A]: starting from 0, the terms log((count(t) + 1) / (n + 2)) of the
    tokens accumulated one after the other, then the log of the prior
    n / total added to the sum. *)
Definition score_in (A : Py.arith) (counts : gmap string nat) (n total : nat)
    (tokens : list string) : Py.num A :=
  Py.add A
    (foldl (fun acc t =>
              Py.add A acc (Py.log A (Py.div A (get0 counts t + 1) (n + 2))))
           (Py.of_int A 0) tokens)
    (Py.log A (Py.div A n total)).

(** The arithmetic without rounding. *)
Definition exact : Py.arith :=
  {| Py.num := float;
     Py.of_int := Float.of_nat;
     Py.div := fun a b => Float.Fin (INR a / INR b);
     Py.log := Float.log;
     Py.add := Float.add;
     Py.gt := Float.gt |}.

(** The order of [elements], one of the orders a set can be visited in. *)
Definition canonical_set (words : list string) : list string :=
  elements (set_of_list words).

(** * Properties *)

(** ** The result monad *)

Lemma bind_ok {A B} (k : A → result B) (a : A) : (Ok a ≫= k) = k a.
Proof. reflexivity. Qed.

Lemma bind_raise {A B} (k : A → result B) (e : exn) : (Raise e ≫= k) = Raise e.
Proof. reflexivity. Qed.

(** ** String methods *)

Lemma chars_app s1 s2 : chars (s1 ++ s2) = (chars s1 ++ chars s2)%list.
Proof. induction s1 as [|c s1 IH]; simpl; [done | by rewrite IH]. Qed.

Lemma chars_inj s1 s2 : chars s1 = chars s2 → s1 = s2.
Proof.
  revert s2. induction s1 as [|c s1 IH]; intros [|d s2]; simpl; try done.
  intros [= -> H]. f_equal. by apply IH.
Qed.

Lemma slice_from_drop n s : chars (Str.slice_from n s) = drop n (chars s).
Proof.
  revert s. induction n as [|n IH]; intros [|c s]; simpl; auto.
Qed.

Lemma replace_delete c s :
  chars (Str.replace c "" s) = filter (fun x => x ≠ c) (chars s).
Proof.
  induction s as [|x s IH]; simpl; [done |].
  rewrite filter_cons. destruct (Ascii.eqb_spec x c) as [-> | Hne].
  - rewrite decide_False by (intros H; by apply H). apply IH.
  - rewrite decide_True by done. simpl. by rewrite IH.
Qed.

Lemma replace_char c d s :
  chars (Str.replace c (String d "") s)
  = (fun x => if Ascii.eqb x c then d else x) <$> chars s.
Proof.
  induction s as [|x s IH]; simpl; [done |].
  destruct (Ascii.eqb x c); simpl; f_equal; exact IH.
Qed.

Lemma split_nonempty sep s : Str.split sep s ≠ [].
Proof.
  destruct s as [|c s]; simpl; [done |].
  destruct (Ascii.eqb c sep); [done |]. by destruct (Str.split sep s).
Qed.

Lemma join_cons sep w w' ws :
  Str.join sep (w :: w' :: ws) = w ++ sep ++ Str.join sep (w' :: ws).
Proof. reflexivity. Qed.

Lemma append_cons c (s t : string) : String c s ++ t = String c (s ++ t).
Proof. reflexivity. Qed.

Lemma split_join sep s : Str.join (String sep "") (Str.split sep s) = s.
Proof.
  induction s as [|c s IH]; simpl; [done |].
  pose proof (split_nonempty sep s) as Hs.
  destruct (Ascii.eqb_spec c sep) as [-> | Hne];
    destruct (Str.split sep s) as [|w ws]; try done.
  - rewrite join_cons, IH. reflexivity.
  - destruct ws as [|w' ws].
    + simpl in *. by rewrite IH.
    + rewrite join_cons in *. rewrite append_cons. by rewrite IH.
Qed.

Lemma split_sep_free sep s :
  Forall (fun w => sep ∉ chars w) (Str.split sep s).
Proof.
  induction s as [|c s IH]; simpl.
  - constructor; [apply not_elem_of_nil | done].
  - destruct (Ascii.eqb_spec c sep) as [-> | Hne].
    + constructor; [apply not_elem_of_nil | done].
    + destruct (Str.split sep s) as [|w ws].
      * constructor; [|done]. simpl. rewrite not_elem_of_cons.
        split; [congruence | apply not_elem_of_nil].
      * inversion IH as [|? ? Hw Hws]; subst.
        constructor; [|done]. simpl. rewrite not_elem_of_cons.
        split; [congruence | done].
Qed.

Lemma split_sep_free_word sep w : sep ∉ chars w → Str.split sep w = [w].
Proof.
  induction w as [|c w IH]; simpl; [done |].
  rewrite not_elem_of_cons. intros [Hne Hw].
  destruct (Ascii.eqb_spec c sep) as [-> | _]; [done |]. by rewrite IH.
Qed.

Lemma split_app_sep sep w rest :
  sep ∉ chars w →
  Str.split sep (w ++ String sep rest) = w :: Str.split sep rest.
Proof.
  induction w as [|c w IH].
  - intros _. change ("" ++ String sep rest) with (String sep rest).
    simpl. by rewrite Ascii.eqb_refl.
  - simpl. rewrite not_elem_of_cons. intros [Hne Hw].
    destruct (Ascii.eqb_spec c sep) as [-> | _]; [done |]. by rewrite IH.
Qed.

(** The two properties above determine the result of [split]. *)
Lemma split_of_join sep words :
  words ≠ [] → Forall (fun w => sep ∉ chars w) words →
  Str.split sep (Str.join (String sep "") words) = words.
Proof.
  induction words as [|w ws IH]; [done |]. intros _ Hfree.
  inversion Hfree as [|? ? Hw Hws]; subst.
  destruct ws as [|w' ws].
  - simpl. by apply split_sep_free_word.
  - rewrite join_cons.
    change (String sep "" ++ Str.join (String sep "") (w' :: ws))
      with (String sep (Str.join (String sep "") (w' :: ws))).
    rewrite split_app_sep by done. by rewrite IH.
Qed.

Lemma split_is_split s : is_split (Str.split Str.SP s) (chars s).
Proof.
  split; [apply split_nonempty |]. split; [|apply split_sep_free].
  change " " with (String Str.SP ""). by rewrite split_join.
Qed.

Lemma is_split_unique words text :
  is_split words text →
  words = Str.split Str.SP (String.string_of_list_ascii text).
Proof.
  intros (Hne & Hjoin & Hfree). rewrite <- Hjoin.
  rewrite String.string_of_list_ascii_of_string.
  change " " with (String Str.SP ""). by rewrite split_of_join.
Qed.

(** Every piece after a separator is a piece of the whole. *)
Lemma split_after_sep sep a rest :
  ∃ w ws, Str.split sep (a ++ String sep rest) = w :: ws ∧
          ∀ x, x ∈ Str.split sep rest → x ∈ ws.
Proof.
  induction a as [|c a (w & ws & Heq & Hin)].
  - change ("" ++ String sep rest) with (String sep rest). simpl.
    rewrite Ascii.eqb_refl. by eexists _, _.
  - rewrite append_cons. simpl. rewrite Heq.
    destruct (Ascii.eqb c sep); eexists _, _; split; try done.
    intros x Hx. apply elem_of_cons. right. by apply Hin.
Qed.

Lemma split_empty_piece sep a rest :
  "" ∈ Str.split sep rest → "" ∈ Str.split sep (a ++ String sep rest).
Proof.
  intros H. destruct (split_after_sep sep a rest) as (w & ws & -> & Hin).
  apply elem_of_cons. right. by apply Hin.
Qed.

Lemma string_of_chars l s : chars s = l → s = String.string_of_list_ascii l.
Proof. intros <-. by rewrite String.string_of_list_ascii_of_string. Qed.

Lemma string_of_list_ascii_app l1 l2 :
  String.string_of_list_ascii (l1 ++ l2)
  = String.string_of_list_ascii l1 ++ String.string_of_list_ascii l2.
Proof.
  apply chars_inj.
  by rewrite chars_app, !String.list_ascii_of_string_of_list_ascii.
Qed.

(** ** The tokenizer *)

Lemma word_set_text sys filename content :
  read_text sys filename = Some content →
  ∃ text, chars text = normalized content ∧
          word_set sys filename = Ok (set_of_list (Str.split Str.SP text)).
Proof.
  intros Hread. unfold word_set. rewrite Hread. eexists. split; [|done].
  change " " with (String Str.SP "").
  rewrite replace_char, replace_delete, slice_from_drop. done.
Qed.

(** C3: the tokenizer returns the set of the pieces obtained by dropping the
    first 9 characters, deleting every carriage return, turning every newline
    into a space and cutting at every single space. The pieces are the only
    list that joins back to that text with no space inside a piece; the empty
    piece made by two spaces in a row or by a space at the end is in the
    set. *)
Theorem word_set_spec sys filename content :
  read_text sys filename = Some content →
  ∃ (X : gset string) (words : list string),
    word_set sys filename = Ok X ∧
    (∀ w, w ∈ X ↔ w ∈ words) ∧
    is_split words (normalized content) ∧
    (∀ words', is_split words' (normalized content) → words' = words) ∧
    (∀ a b, normalized content = (a ++ [Str.SP; Str.SP] ++ b)%list → "" ∈ X) ∧
    (∀ a, normalized content = (a ++ [Str.SP])%list → "" ∈ X).
Proof.
  intros Hread.
  destruct (word_set_text sys filename content Hread) as (text & Htext & Hws).
  exists (set_of_list (Str.split Str.SP text)), (Str.split Str.SP text).
  split; [done |]. split; [intros w; apply elem_of_list_to_set |].
  split; [rewrite <- Htext; apply split_is_split |].
  apply string_of_chars in Htext. split; [|split].
  - intros words' H. apply is_split_unique in H. by rewrite H, Htext.
  - intros a b Heq. apply elem_of_list_to_set. rewrite Htext, Heq.
    rewrite string_of_list_ascii_app. simpl.
    apply split_empty_piece. simpl. apply elem_of_cons. by left.
  - intros a Heq. apply elem_of_list_to_set. rewrite Htext, Heq.
    rewrite string_of_list_ascii_app. simpl.
    apply split_empty_piece. simpl. apply elem_of_cons. by left.
Qed.

Lemma word_set_spec_witness :
  ∃ (X : gset string) (words : list string),
    word_set (one_mail "Subject: a  b ") "mail.txt" = Ok X ∧
    (∀ w, w ∈ X ↔ w ∈ words) ∧
    is_split words (normalized "Subject: a  b ") ∧
    (∀ words', is_split words' (normalized "Subject: a  b ") → words' = words) ∧
    (∀ a b, normalized "Subject: a  b " = (a ++ [Str.SP; Str.SP] ++ b)%list → "" ∈ X) ∧
    (∀ a, normalized "Subject: a  b " = (a ++ [Str.SP])%list → "" ∈ X).
Proof. apply (word_set_spec (one_mail "Subject: a  b ") "mail.txt"). reflexivity. Defined.

(** C7, as stated, fails: the text "Subject:X" has 9 characters in all, so
    nothing is left after the slice and the only token is the empty one. *)
Lemma word_set_subject_X_counterexample :
  read_text (one_mail "Subject:X") "mail.txt" = Some "Subject:X" ∧
  word_set (one_mail "Subject:X") "mail.txt" = Ok {[ "" ]} ∧
  word_set (one_mail "Subject:X") "mail.txt" ≠ Ok {[ "X" ]}.
Proof.
  split; [reflexivity |]. split; [by vm_compute |].
  vm_compute. intros H. discriminate H.
Qed.

(** C7, amended: a document whose content is the 9-character header
    "Subject: " (the label, the colon and one space) followed by "X"
    tokenizes to the set with the one token "X". *)
Theorem word_set_subject_space_X sys filename :
  read_text sys filename = Some "Subject: X" →
  word_set sys filename = Ok {[ "X" ]}.
Proof.
  intros Hread. unfold word_set. rewrite Hread. by vm_compute.
Qed.

Lemma word_set_subject_space_X_witness :
  word_set (one_mail "Subject: X") "mail.txt" = Ok {[ "X" ]}.
Proof. apply word_set_subject_space_X. reflexivity. Defined.

(** ** Training *)

Lemma word_set_readable sys filename :
  readable sys filename → ∃ X, word_set sys filename = Ok X.
Proof. intros [content H]. unfold word_set. rewrite H. by eexists. Qed.

Lemma count_word_lookup (d : gmap string nat) word t :
  count_word word d !! t
  = if decide (t = word) then Some (get0 d t + 1) else d !! t.
Proof.
  unfold count_word, get0. destruct (decide (t = word)) as [-> | Hne].
  - destruct (d !! word) as [c|]; simpl; by rewrite lookup_insert_eq.
  - destruct (d !! word) as [c|]; by rewrite lookup_insert_ne.
Qed.

(** The inner loop of [get_counts] adds one to the count of each word of the
    set, and touches nothing else. *)
Lemma count_words_loop (l : list string) (d : gmap string nat) :
  NoDup l →
  ∃ d', for_each (fun word dict1 => Ok (count_word word dict1)) l d = Ok d' ∧
        ∀ t, d' !! t = if decide (t ∈ l) then Some (get0 d t + 1) else d !! t.
Proof.
  intros Hnd. revert d. induction Hnd as [|x l Hx Hnd IH]; intros d.
  - exists d. split; [done |]. intros t.
    by rewrite decide_False by apply not_elem_of_nil.
  - cbn [for_each]. change (mbind ?k (Ok ?a)) with (k a). cbn beta.
    destruct (IH (count_word x d)) as (d' & -> & Hd'). exists d'.
    split; [done |]. intros t. rewrite Hd'. unfold get0.
    rewrite !count_word_lookup.
    destruct (decide (t = x)) as [-> | Hne].
    + rewrite decide_False by done. rewrite decide_True by (by left). done.
    + destruct (decide (t ∈ l)) as [Hin | Hnin].
      * rewrite decide_True by (by right). done.
      * rewrite decide_False; [done |]. rewrite not_elem_of_cons. done.
Qed.

Lemma doc_count_cons sys t f files :
  doc_count sys t (f :: files)
  = (if contains sys t f then 1 else 0) + doc_count sys t files.
Proof. unfold doc_count. simpl. by destruct (contains sys t f). Qed.

Lemma doc_count_le sys t files : (doc_count sys t files <= length files)%nat.
Proof.
  induction files as [|f files IH]; [done |].
  rewrite doc_count_cons. simpl. destruct (contains sys t f); lia.
Qed.

(** The outer loop of [get_counts], from any table [d]. *)
Lemma get_counts_loop sys files (d : gmap string nat) :
  Forall (readable sys) files →
  ∃ d', for_each
          (fun file dict1 =>
             set1 ← word_set sys file;
             for_each (fun word dict1 => Ok (count_word word dict1))
                      (elements set1) dict1)
          files d = Ok d' ∧
        ∀ t, d' !! t = if Nat.eqb (doc_count sys t files) 0 then d !! t
                       else Some (get0 d t + doc_count sys t files).
Proof.
  intros Hr. revert d. induction Hr as [|f files Hf Hr IH]; intros d.
  - exists d. split; [done |]. intros t. done.
  - destruct (word_set_readable sys f Hf) as [X HX]. simpl. rewrite HX. simpl.
    destruct (count_words_loop (elements X) d (NoDup_elements X))
      as (d1 & -> & Hd1). simpl.
    destruct (IH d1) as (d' & -> & Hd'). exists d'. split; [done |].
    intros t. rewrite Hd', doc_count_cons. unfold contains. rewrite HX.
    unfold get0. rewrite !Hd1.
    destruct (decide (t ∈ elements X)) as [Hin | Hnin].
    + rewrite bool_decide_eq_true_2 by (by apply elem_of_elements).
      destruct (Nat.eqb_spec (doc_count sys t files) 0) as [-> | Hne];
        simpl; unfold get0; f_equal; lia.
    + rewrite bool_decide_eq_false_2 by (by rewrite <- elem_of_elements).
      done.
Qed.

Lemma get_counts_lookup sys files :
  Forall (readable sys) files →
  ∃ d, get_counts sys files = Ok d ∧
       ∀ t, d !! t = table_entry (doc_count sys t files).
Proof.
  intros Hr. destruct (get_counts_loop sys files ∅ Hr) as (d & Hd & Hl).
  exists d. split; [done |]. intros t. rewrite Hl. unfold table_entry, get0.
  rewrite lookup_empty. done.
Qed.

Lemma doc_count_pos sys t f files :
  f ∈ files → contains sys t f = true → (1 <= doc_count sys t files)%nat.
Proof.
  intros Hin Hc. induction files as [|g files IH].
  - by apply not_elem_of_nil in Hin.
  - rewrite doc_count_cons. apply elem_of_cons in Hin as [<- | Hin].
    + rewrite Hc. lia.
    + specialize (IH Hin). lia.
Qed.

Lemma table_entry_Some n c :
  table_entry n = Some c → c = n ∧ (1 <= n)%nat.
Proof.
  unfold table_entry. destruct (Nat.eqb_spec n 0); [done |].
  intros [= <-]. lia.
Qed.

(** On readable documents [fit] ends normally, in a state made of the two
    lengths and the two tables of [get_counts], whatever the state before. *)
Lemma fit_ok sys train_hams train_spams :
  Forall (readable sys) train_hams → Forall (readable sys) train_spams →
  ∃ dh ds,
    (∀ t, dh !! t = table_entry (doc_count sys t train_hams)) ∧
    (∀ t, ds !! t = table_entry (doc_count sys t train_spams)) ∧
    ∀ self, fit sys self train_hams train_spams
            = ({| num_train_hams := length train_hams;
                  num_train_spams := length train_spams;
                  word_counts_spam := ds;
                  word_counts_ham := dh |}, Ok tt).
Proof.
  intros Hh Hs.
  destruct (get_counts_lookup sys train_hams Hh) as (dh & Hdh & Hlh).
  destruct (get_counts_lookup sys train_spams Hs) as (ds & Hds & Hls).
  exists dh, ds. split; [done |]. split; [done |].
  intros self. unfold fit. by rewrite Hds, Hdh.
Qed.

(** C2: on readable documents, [fit] sets the two counters to the sizes of
    the two collections and makes each table map a token to the number of
    documents of its collection whose token set has the token (no entry
    when that number is 0); the state before the call has no influence. *)
Theorem fit_spec sys self train_hams train_spams :
  Forall (readable sys) train_hams → Forall (readable sys) train_spams →
  ∃ self',
    fit sys self train_hams train_spams = (self', Ok tt) ∧
    num_train_hams self' = length train_hams ∧
    num_train_spams self' = length train_spams ∧
    (∀ t, word_counts_ham self' !! t
          = table_entry (doc_count sys t train_hams)) ∧
    (∀ t, word_counts_spam self' !! t
          = table_entry (doc_count sys t train_spams)) ∧
    (∀ before, fit sys before train_hams train_spams = (self', Ok tt)).
Proof.
  intros Hh Hs.
  destruct (fit_ok sys train_hams train_spams Hh Hs) as (dh & ds & Hdh & Hds & Hfit).
  eexists. split; [apply Hfit |]. simpl. repeat split; done.
Qed.

(** C6: after [fit] on readable documents, every token of a spam training
    document is a key of the spam table, and every key of the spam table
    has a count between 1 and the number of spam training documents; the
    same for the ham table and the ham training documents. *)
Theorem fit_table_bounds sys self train_hams train_spams :
  Forall (readable sys) train_hams → Forall (readable sys) train_spams →
  let self' := (fit sys self train_hams train_spams).1 in
  (∀ t f X, f ∈ train_spams → word_set sys f = Ok X → t ∈ X →
            is_Some (word_counts_spam self' !! t)) ∧
  (∀ t c, word_counts_spam self' !! t = Some c →
          (1 <= c <= length train_spams)%nat) ∧
  (∀ t f X, f ∈ train_hams → word_set sys f = Ok X → t ∈ X →
            is_Some (word_counts_ham self' !! t)) ∧
  (∀ t c, word_counts_ham self' !! t = Some c →
          (1 <= c <= length train_hams)%nat).
Proof.
  intros Hh Hs.
  destruct (fit_ok sys train_hams train_spams Hh Hs) as (dh & ds & Hdh & Hds & Hfit).
  rewrite Hfit. simpl.
  assert (Hkey : ∀ files t f X, f ∈ files → word_set sys f = Ok X → t ∈ X →
                 is_Some (table_entry (doc_count sys t files))).
  { intros files t f X Hin HX Ht.
    assert (contains sys t f = true) as Hc.
    { unfold contains. rewrite HX. by apply bool_decide_eq_true_2. }
    pose proof (doc_count_pos sys t f files Hin Hc) as Hpos.
    unfold table_entry. destruct (Nat.eqb_spec (doc_count sys t files) 0); [lia |].
    by eexists. }
  assert (Hbound : ∀ files t c, table_entry (doc_count sys t files) = Some c →
                   (1 <= c <= length files)%nat).
  { intros files t c H. apply table_entry_Some in H as [-> H1].
    pose proof (doc_count_le sys t files). lia. }
  split; [|split; [|split]].
  - intros t f X ???. rewrite Hds. by eapply Hkey.
  - intros t c H. rewrite Hds in H. by apply Hbound in H.
  - intros t f X ???. rewrite Hdh. by eapply Hkey.
  - intros t c H. rewrite Hdh in H. by apply Hbound in H.
Qed.

(** ** Floats *)

Lemma truediv_ok a b :
  b ≠ 0%nat → Float.truediv a b = Ok (Float.Fin (INR a / INR b)).
Proof.
  intros Hb. unfold Float.truediv. by destruct (Nat.eqb_spec b 0).
Qed.

Lemma truediv_zero a : Float.truediv a 0 = Raise ZeroDivisionError.
Proof. reflexivity. Qed.

Lemma log_pos r : (0 < r)%R → Float.log (Float.Fin r) = Float.Fin (ln r).
Proof. intros Hr. unfold Float.log. by destruct (Rlt_dec 0 r). Qed.

Lemma log_zero : Float.log (Float.Fin 0) = Float.NegInf.
Proof.
  unfold Float.log. destruct (Rlt_dec 0 0) as [H | _]; [lra |].
  by destruct (Req_dec_T 0 0).
Qed.

Lemma gt_lt x y : Float.gt x y = true ↔ Float.lt y x.
Proof.
  destruct x as [| | |a], y as [| | |b]; simpl; try done.
  destruct (Rlt_dec b a); split; try done.
Qed.

Lemma ratio_pos a b : (0 < (INR a + 1) / (INR b + 2))%R.
Proof.
  pose proof (pos_INR a). pose proof (pos_INR b).
  apply Rdiv_lt_0_compat; lra.
Qed.

(** ** Prediction *)

(** [sum_over] is the sum over the set, whatever the order of [elements]. *)
Lemma sum_over_empty g : sum_over ∅ g = 0%R.
Proof. unfold sum_over. by rewrite elements_empty. Qed.

Lemma sum_over_insert (X : gset string) g x :
  x ∉ X → sum_over ({[ x ]} ∪ X) g = (g x + sum_over X g)%R.
Proof.
  intros Hx. unfold sum_over.
  change (g x + foldr (fun t acc => g t + acc) 0 (elements X))%R
    with (foldr (fun t acc => g t + acc)%R 0%R (x :: elements X)).
  apply (foldr_permutation_proper (=) (fun t acc => (g t + acc)%R)).
  - solve_proper.
  - intros a1 a2 b. lra.
  - by apply elements_union_singleton.
Qed.

Lemma log_sum_loop counts n (l : list string) (a : R) :
  for_each
    (fun word acc =>
       q ← Float.truediv (get0 counts word + 1) (n + 2);
       Ok (Float.add acc (Float.log q)))
    l (Float.Fin a)
  = Ok (Float.Fin
          (a + foldr (fun t acc => token_term counts n t + acc) 0 l)%R).
Proof.
  revert a. induction l as [|t l IH]; intros a.
  - simpl. do 2 f_equal. lra.
  - cbn [for_each foldr]. rewrite truediv_ok by lia.
    rewrite bind_ok, !plus_INR. change (INR 1) with 1%R. change (INR 2) with 2%R.
    rewrite log_pos by apply ratio_pos.
    rewrite bind_ok. cbn [Float.add]. rewrite IH. unfold token_term. do 2 f_equal. lra.
Qed.

Lemma log_sum_ok counts n X :
  log_sum counts n X = Ok (Float.Fin (sum_over X (token_term counts n))).
Proof.
  unfold log_sum, Float.of_nat. change (INR 0) with 0%R.
  rewrite log_sum_loop. unfold sum_over. do 2 f_equal. lra.
Qed.

(** A finite sum plus the logarithm of the prior is the score. *)
Lemma add_log_prior counts n total X :
  (0 < total)%nat →
  Float.add (Float.Fin (sum_over X (token_term counts n)))
            (Float.log (Float.Fin (INR n / INR total)))
  = score counts n total X.
Proof.
  intros Htot. unfold score. destruct (Nat.eqb_spec n 0) as [-> | Hn].
  - change (INR 0) with 0%R. unfold Rdiv. rewrite Rmult_0_l, log_zero. done.
  - assert (0 < INR n / INR total)%R as Hpos.
    { apply Rdiv_lt_0_compat; apply lt_0_INR; lia. }
    rewrite log_pos by done. simpl. f_equal. lra.
Qed.

(** What [predict] returns on a trained state and a readable document. *)
Lemma predict_scores sys self filename X :
  (0 < num_train_hams self + num_train_spams self)%nat →
  word_set sys filename = Ok X →
  predict sys self filename =
    Ok (if Float.gt
             (score (word_counts_spam self) (num_train_spams self)
                    (num_train_hams self + num_train_spams self) X)
             (score (word_counts_ham self) (num_train_hams self)
                    (num_train_hams self + num_train_spams self) X)
        then SPAM_LABEL else HAM_LABEL).
Proof.
  intros Htot HX. unfold predict.
  rewrite !truediv_ok by lia. rewrite !bind_ok, HX, bind_ok.
  rewrite !log_sum_ok, !bind_ok. cbn zeta.
  rewrite !add_log_prior by done.
  by destruct (Float.gt _ _).
Qed.

Lemma word_set_word_list sys filename :
  word_set sys filename
  = (words ← word_list sys filename; Ok (set_of_list words)).
Proof.
  unfold word_set, word_list. by destruct (read_text sys filename).
Qed.

Lemma truediv_in_ok A a b :
  b ≠ 0%nat → truediv_in A a b = Ok (Py.div A a b).
Proof. intros Hb. unfold truediv_in. by destruct (Nat.eqb_spec b 0). Qed.

(** A loop of [predict_in] never raises, and accumulates the terms from the
    left, in the order of the visit. *)
Lemma log_sum_in_loop A counts n (l : list string) (acc : Py.num A) :
  for_each
    (fun word acc =>
       q ← truediv_in A (get0 counts word + 1) (n + 2);
       Ok (Py.add A acc (Py.log A q)))
    l acc
  = Ok (foldl (fun acc t =>
                 Py.add A acc
                        (Py.log A (Py.div A (get0 counts t + 1) (n + 2))))
              acc l).
Proof.
  revert acc. induction l as [|t l IH]; intros acc; [done |].
  cbn [for_each foldl]. rewrite truediv_in_ok by lia.
  by rewrite !bind_ok, IH.
Qed.

(** What [predict_in] returns once the divisions pass and the document is
    read. *)
Lemma predict_in_scores A py_set sys self filename words :
  (0 < num_train_hams self + num_train_spams self)%nat →
  word_list sys filename = Ok words →
  predict_in A py_set sys self filename =
    Ok (if Py.gt A
             (score_in A (word_counts_spam self) (num_train_spams self)
                       (num_train_hams self + num_train_spams self)
                       (py_set words))
             (score_in A (word_counts_ham self) (num_train_hams self)
                       (num_train_hams self + num_train_spams self)
                       (py_set words))
        then SPAM_LABEL else HAM_LABEL).
Proof.
  intros Htot Hw. unfold predict_in, log_sum_in, score_in.
  rewrite !truediv_in_ok by lia. rewrite !bind_ok, Hw, bind_ok. cbn zeta.
  rewrite !log_sum_in_loop, !bind_ok.
  by destruct (Py.gt A _ _).
Qed.

(** C1: on a state with at least one training document and a readable
    document with token set [X], in whatever arithmetic the floats have and
    in whatever order the set is visited, [predict] raises nothing and
    answers by comparing two scores. The score of a label L is computed, in
    that arithmetic, as the specification says: over the tokens of [X],
    each taken once, the terms log((count_L(t) + 1) / (num_train_L + 2)) are
    accumulated from 0, a token absent from the table counting 0, and
    log(num_train_L / N) is added to the sum. The answer is the spam label
    when the spam score is greater than the ham score by the arithmetic's
    [>], and the ham label otherwise; with a [>] that no number has above
    itself, equal scores give the ham label. *)
Theorem predict_in_spec A py_set sys self filename X :
  set_order py_set →
  (0 < num_train_hams self + num_train_spams self)%nat →
  word_set sys filename = Ok X →
  ∃ tokens,
    NoDup tokens ∧ (∀ t, t ∈ tokens ↔ t ∈ X) ∧
    let total := (num_train_hams self + num_train_spams self)%nat in
    let spam_score :=
      score_in A (word_counts_spam self) (num_train_spams self) total tokens in
    let ham_score :=
      score_in A (word_counts_ham self) (num_train_hams self) total tokens in
    (Py.gt A spam_score ham_score = true →
     predict_in A py_set sys self filename = Ok SPAM_LABEL) ∧
    (Py.gt A spam_score ham_score = false →
     predict_in A py_set sys self filename = Ok HAM_LABEL) ∧
    ((∀ x, Py.gt A x x = false) → spam_score = ham_score →
     predict_in A py_set sys self filename = Ok HAM_LABEL).
Proof.
  intros Hord Htot HX. rewrite word_set_word_list in HX.
  destruct (word_list sys filename) as [words|] eqn:Hw; [|done].
  rewrite bind_ok in HX. injection HX as <-.
  destruct (Hord words) as [Hnd Hin].
  exists (py_set words). split; [done |]. split.
  { intros t. rewrite Hin. symmetry. apply elem_of_list_to_set. }
  intros total spam_score ham_score.
  rewrite (predict_in_scores A py_set sys self filename words Htot Hw).
  fold total. fold spam_score. fold ham_score.
  split; [by intros -> |]. split; [by intros -> |].
  intros Hirr ->. by rewrite Hirr.
Qed.

(** [predict] is [predict_in] in the arithmetic without rounding, the sets
    visited in the order of [elements]. *)
Lemma predict_exact sys self filename :
  predict sys self filename = predict_in exact canonical_set sys self filename.
Proof.
  unfold predict, predict_in, Float.truediv, truediv_in, word_set, word_list.
  destruct (Nat.eqb (num_train_hams self + num_train_spams self) 0);
    [reflexivity |].
  destruct (read_text sys filename); reflexivity.
Qed.

Lemma canonical_set_order : set_order canonical_set.
Proof.
  intros words. unfold canonical_set, set_of_list.
  split; [apply NoDup_elements |].
  intros w. by rewrite elem_of_elements, elem_of_list_to_set.
Qed.

Lemma exact_term counts n t :
  Float.log (Float.Fin (INR (get0 counts t + 1) / INR (n + 2)))
  = Float.Fin (token_term counts n t).
Proof.
  rewrite !plus_INR. change (INR 1) with 1%R. change (INR 2) with 2%R.
  by rewrite log_pos by apply ratio_pos.
Qed.

Lemma exact_sum_loop counts n (l : list string) (a : R) :
  foldl (fun acc t =>
           Float.add acc
                     (Float.log (Float.Fin (INR (get0 counts t + 1)
                                            / INR (n + 2)))))
        (Float.Fin a) l
  = Float.Fin (a + foldr (fun t acc => token_term counts n t + acc) 0 l)%R.
Proof.
  revert a. induction l as [|t l IH]; intros a; cbn [foldl foldr].
  - f_equal. lra.
  - rewrite exact_term. cbn [Float.add]. rewrite IH. f_equal. lra.
Qed.

(** Without rounding, the score computed along any visit of the set is the
    closed formula ln(n / total) + sum of ln((count(t) + 1) / (n + 2)). *)
Lemma score_in_exact counts n total (tokens : list string) (X : gset string) :
  (0 < total)%nat → NoDup tokens → (∀ t, t ∈ tokens ↔ t ∈ X) →
  score_in exact counts n total tokens = score counts n total X.
Proof.
  intros Htot Hnd Hin. unfold score_in. cbn [Py.add Py.log Py.div Py.of_int exact].
  unfold Float.of_nat. change (INR 0) with 0%R. rewrite exact_sum_loop.
  assert (tokens ≡ₚ elements X) as Hperm.
  { apply NoDup_Permutation; [done | apply NoDup_elements |].
    intros t. by rewrite Hin, elem_of_elements. }
  assert (foldr (fun t acc => token_term counts n t + acc) 0 tokens
          = sum_over X (token_term counts n))%R as Hsum.
  { unfold sum_over.
    apply (foldr_permutation_proper (=)
             (fun t acc => (token_term counts n t + acc)%R));
      [solve_proper | intros a1 a2 b; lra | done]. }
  rewrite Hsum, Rplus_0_l. by apply add_log_prior.
Qed.

Lemma predict_label sys self filename :
  (0 < num_train_hams self + num_train_spams self)%nat →
  readable sys filename →
  ∃ l, predict sys self filename = Ok l.
Proof.
  intros Htot Hr. destruct (word_set_readable sys filename Hr) as [X HX].
  rewrite (predict_scores sys self filename X Htot HX). by eexists.
Qed.

Lemma predict_untrained sys self filename :
  (num_train_hams self + num_train_spams self = 0)%nat →
  predict sys self filename = Raise ZeroDivisionError.
Proof. intros H. unfold predict. by rewrite H, truediv_zero. Qed.

(** C10: after [fit] with no ham document and at least one spam document,
    all readable, [predict] answers the spam label on every readable
    document, with no exception; after [fit] with at least one ham document
    and no spam document it answers the ham label. *)
Theorem predict_one_sided sys before filename :
  readable sys filename →
  (∀ train_spams, train_spams ≠ [] → Forall (readable sys) train_spams →
     predict sys (fit sys before [] train_spams).1 filename = Ok SPAM_LABEL) ∧
  (∀ train_hams, train_hams ≠ [] → Forall (readable sys) train_hams →
     predict sys (fit sys before train_hams []).1 filename = Ok HAM_LABEL).
Proof.
  intros Hr. destruct (word_set_readable sys filename Hr) as [X HX]. split.
  - intros train_spams Hne Hs.
    destruct (fit_ok sys [] train_spams (Forall_nil_2 _) Hs)
      as (dh & ds & _ & _ & Hfit).
    rewrite Hfit. cbn [fst].
    assert (0 < length train_spams)%nat as Hlen.
    { destruct train_spams; [done | simpl; lia]. }
    rewrite (predict_scores sys _ filename X) by (simpl; first [lia | done]).
    cbn [num_train_hams num_train_spams word_counts_spam word_counts_ham length].
    unfold score. simpl Nat.eqb.
    destruct (Nat.eqb_spec (length train_spams) 0) as [H0 | _]; [lia | done].
  - intros train_hams Hne Hh.
    destruct (fit_ok sys train_hams [] Hh (Forall_nil_2 _))
      as (dh & ds & _ & _ & Hfit).
    rewrite Hfit. cbn [fst].
    assert (0 < length train_hams)%nat as Hlen.
    { destruct train_hams; [done | simpl; lia]. }
    rewrite (predict_scores sys _ filename X) by (simpl; first [lia | done]).
    cbn [num_train_hams num_train_spams word_counts_spam word_counts_ham length].
    unfold score. simpl Nat.eqb.
    by destruct (Nat.eqb (length train_hams) 0).
Qed.

(** ** Accuracy *)

Lemma count_correct_nil sys self label tc :
  count_correct sys self label [] tc = Ok tc.
Proof. reflexivity. Qed.

Lemma count_correct_untrained sys self label f files tc :
  (num_train_hams self + num_train_spams self = 0)%nat →
  count_correct sys self label (f :: files) tc = Raise ZeroDivisionError.
Proof.
  intros H. unfold count_correct. cbn [for_each].
  by rewrite predict_untrained.
Qed.

(** One loop of [accuracy] adds the number of documents labelled [label]. *)
Lemma count_correct_hits sys self label files tc :
  (0 < num_train_hams self + num_train_spams self)%nat →
  Forall (readable sys) files →
  count_correct sys self label files tc = Ok (tc + hits sys self label files)%nat.
Proof.
  intros Htot Hr. revert tc. unfold count_correct, hits.
  induction Hr as [|f files Hf Hr IH]; intros tc.
  - simpl. f_equal. lia.
  - destruct (predict_label sys self f Htot Hf) as [l Hl].
    cbn [for_each List.filter]. rewrite Hl, !bind_ok, IH.
    destruct (String.eqb l label); simpl; f_equal; lia.
Qed.

Lemma hits_le sys self label files :
  (hits sys self label files <= length files)%nat.
Proof. apply List.filter_length_le. Qed.

(** C4: a state that was never fitted, or was fitted with two empty
    collections, has no training document; on such a state [predict] raises
    ZeroDivisionError on any document and [accuracy] raises it on any pair
    of collections: neither returns a value. *)
Theorem untrained_raises sys :
  (num_train_hams init + num_train_spams init = 0)%nat ∧
  (∀ before,
     (num_train_hams (fit sys before [] []).1
      + num_train_spams (fit sys before [] []).1 = 0)%nat) ∧
  (∀ self, (num_train_hams self + num_train_spams self = 0)%nat →
     (∀ filename, predict sys self filename = Raise ZeroDivisionError) ∧
     (∀ hams spams, accuracy sys self hams spams = Raise ZeroDivisionError)).
Proof.
  split; [done |]. split; [done |]. intros self H. split.
  - intros filename. by apply predict_untrained.
  - intros hams spams. unfold accuracy. destruct hams as [|f hams].
    + destruct spams as [|g spams]; [done |].
      rewrite count_correct_nil, bind_ok.
      by rewrite count_correct_untrained.
    + by rewrite count_correct_untrained.
Qed.

(** C8: on every state, [accuracy] of two empty collections raises
    ZeroDivisionError, from the division by the total count 0. *)
Theorem accuracy_empty_raises sys self :
  accuracy sys self [] [] = Raise ZeroDivisionError.
Proof. reflexivity. Qed.

(** C5: on a trained state and readable documents, at least one in all,
    [accuracy] returns the number of documents of the first collection
    predicted ham plus the number of documents of the second collection
    predicted spam, divided by the number of documents; the value is
    between 0 and 1. *)
Theorem accuracy_spec sys self hams spams :
  (0 < num_train_hams self + num_train_spams self)%nat →
  Forall (readable sys) hams → Forall (readable sys) spams →
  (0 < length hams + length spams)%nat →
  let correct :=
    (hits sys self HAM_LABEL hams + hits sys self SPAM_LABEL spams)%nat in
  let total := (length hams + length spams)%nat in
  accuracy sys self hams spams = Ok (Float.Fin (INR correct / INR total)) ∧
  (0 <= INR correct / INR total <= 1)%R.
Proof.
  intros Htot Hh Hs Hlen correct total. split.
  - unfold accuracy. rewrite (count_correct_hits sys self _ hams) by done.
    rewrite bind_ok, (count_correct_hits sys self _ spams) by done.
    rewrite bind_ok. fold correct. fold total. apply truediv_ok. lia.
  - pose proof (hits_le sys self HAM_LABEL hams).
    pose proof (hits_le sys self SPAM_LABEL spams).
    assert (correct <= total)%nat as Hle by (unfold correct, total; lia).
    assert (0 < INR total)%R as Hpos by (apply lt_0_INR; lia).
    apply le_INR in Hle. pose proof (pos_INR correct).
    split.
    + by apply Rle_mult_inv_pos.
    + apply (Rmult_le_reg_r (INR total)); [done |].
      unfold Rdiv. rewrite Rmult_assoc, Rinv_l by lra. lra.
Qed.

(** ** The corpus loader *)

Lemma foldl_snoc_fmap {A B} (f : A → B) (l : list A) (acc : list B) :
  foldl (fun acc x => (acc ++ [f x])%list) acc l = (acc ++ (f <$> l))%list.
Proof.
  revert acc. induction l as [|x l IH]; intros acc; simpl.
  - by rewrite app_nil_r.
  - by rewrite IH, <- app_assoc.
Qed.

Lemma collect_documents sys path group label :
  collect sys path group label
  = match listdir sys (Path.join path [group; label]) with
    | Some _ => Ok (documents sys path group label)
    | None => Raise OSError
    end.
Proof.
  unfold collect, documents, os_listdir.
  destruct (listdir sys (Path.join path [group; label])); [|done].
  by rewrite bind_ok, foldl_snoc_fmap.
Qed.

(** The assertion of [load_data] on a listing holds exactly when the listing
    has the expected names. *)
Lemma same_names (names expected : list string) :
  bool_decide (set_of_list names = set_of_list expected) = true
  ↔ ∀ x, x ∈ names ↔ x ∈ expected.
Proof.
  rewrite bool_decide_eq_true. unfold set_of_list. split.
  - intros Heq x. by rewrite <- !(elem_of_list_to_set (C:=gset string)), Heq.
  - intros H. apply set_eq. intros x. by rewrite !elem_of_list_to_set.
Qed.

Lemma listed_and_asserted sys dir expected expected' :
  (∀ x, x ∈ expected ↔ x ∈ expected') →
  (∃ names, os_listdir sys dir = Ok names ∧
            assert (bool_decide (set_of_list names = set_of_list expected'))
            = Ok tt ∧ lists_exactly sys dir expected) ∨
  (¬ lists_exactly sys dir expected ∧
   ((os_listdir sys dir = Raise OSError) ∨
    (∃ names, os_listdir sys dir = Ok names ∧
              assert (bool_decide (set_of_list names = set_of_list expected'))
              = Raise AssertionError))).
Proof.
  intros Hexp. unfold os_listdir, lists_exactly.
  destruct (listdir sys dir) as [names|].
  - destruct (bool_decide (set_of_list names = set_of_list expected')) eqn:Hb.
    + left. exists names. split; [done |]. split; [by rewrite Hb |].
      exists names. split; [done |]. intros x.
      apply same_names with (x := x) in Hb. by rewrite Hexp.
    + right. split.
      * intros (names' & [= <-] & H).
        assert (bool_decide (set_of_list names = set_of_list expected') = true)
          as Hb'; [|congruence].
        apply same_names. intros x. by rewrite H, Hexp.
      * right. exists names. by rewrite Hb.
  - right. split; [|by left]. by intros (names' & [=] & _).
Qed.

(** One listing and its assertion at the head of the rest [k] of
    [load_data]: they pass when the directory has the expected names, and
    raise otherwise. *)
Lemma check_group {A} sys dir expected expected' (k : result A) :
  (∀ x, x ∈ expected ↔ x ∈ expected') →
  let run :=
    names ← os_listdir sys dir;
    _ ← assert (bool_decide (set_of_list names = set_of_list expected'));
    k in
  (lists_exactly sys dir expected ∧ run = k) ∨
  (¬ lists_exactly sys dir expected ∧
   (run = Raise AssertionError ∨ run = Raise OSError)).
Proof.
  intros Hexp run. unfold run.
  destruct (listed_and_asserted sys dir expected expected' Hexp)
    as [(names & Hl & Ha & Hshape) | (Hshape & [Hl | (names & Hl & Ha)])].
  - left. split; [done |]. by rewrite Hl, bind_ok, Ha, bind_ok.
  - right. split; [done |]. right. by rewrite Hl.
  - right. split; [done |]. left. by rewrite Hl, bind_ok, Ha.
Qed.

Lemma load_data_cases sys path :
  (corpus_shape sys path ∧
   load_data sys path
   = Ok (documents sys path "train" "ham", documents sys path "train" "spam",
         documents sys path "test" "ham", documents sys path "test" "spam")) ∨
  (¬ corpus_shape sys path ∧
   (load_data sys path = Raise AssertionError ∨
    load_data sys path = Raise OSError)).
Proof.
  unfold load_data, corpus_shape.
  match goal with |- context [os_listdir sys path ≫= ?k] =>
    match k with (fun root => _ ≫= fun _ => ?rest) =>
      destruct (check_group sys path ["train"; "test"] ["test"; "train"] rest)
        as [[Hroot ->] | [Hroot Herr]]
    end
  end; [intros x; rewrite !elem_of_cons; tauto | | right; split; [tauto | done]].
  match goal with |- context [os_listdir sys (Path.join path ["test"]) ≫= ?k] =>
    match k with (fun test => _ ≫= fun _ => ?rest) =>
      destruct (check_group sys (Path.join path ["test"])
                  ["ham"; "spam"] ["ham"; "spam"] rest)
        as [[Htest ->] | [Htest Herr]]
    end
  end; [done | | right; split; [tauto | done]].
  match goal with |- context [os_listdir sys (Path.join path ["train"]) ≫= ?k] =>
    match k with (fun train => _ ≫= fun _ => ?rest) =>
      destruct (check_group sys (Path.join path ["train"])
                  ["ham"; "spam"] ["ham"; "spam"] rest)
        as [[Htrain ->] | [Htrain Herr]]
    end
  end; [done | | right; split; [tauto | done]].
  rewrite !collect_documents.
  destruct (listdir sys (Path.join path ["train"; "ham"])) as [l1|] eqn:H1;
    [|right; split; [by intros (_ & _ & _ & [? [=]] & _) | auto]].
  rewrite bind_ok.
  destruct (listdir sys (Path.join path ["train"; "spam"])) as [l2|] eqn:H2;
    [|right; split; [by intros (_ & _ & _ & _ & [? [=]] & _) | auto]].
  rewrite bind_ok.
  destruct (listdir sys (Path.join path ["test"; "ham"])) as [l3|] eqn:H3;
    [|right; split; [by intros (_ & _ & _ & _ & _ & [? [=]] & _) | auto]].
  rewrite bind_ok.
  destruct (listdir sys (Path.join path ["test"; "spam"])) as [l4|] eqn:H4;
    [|right; split; [by intros (_ & _ & _ & _ & _ & _ & [? [=]]) | auto]].
  rewrite bind_ok. left. repeat split; by eauto.
Qed.

(** One listing and its assertion at the head of the rest [k] of
    [load_data], by cause: they pass when the directory has the expected
    names, the assertion fails when it can be listed and has other names,
    the listing fails when it cannot be listed. *)
Lemma check_group_cause {A} sys dir expected expected' (k : result A) :
  (∀ x, x ∈ expected ↔ x ∈ expected') →
  let run :=
    names ← os_listdir sys dir;
    _ ← assert (bool_decide (set_of_list names = set_of_list expected'));
    k in
  (lists_exactly sys dir expected ∧ run = k) ∨
  (wrong_names sys dir expected ∧ run = Raise AssertionError) ∨
  (listdir sys dir = None ∧ run = Raise OSError).
Proof.
  intros Hexp run. unfold run, os_listdir, lists_exactly, wrong_names.
  destruct (listdir sys dir) as [names|]; [|by right; right].
  rewrite bind_ok.
  destruct (bool_decide (set_of_list names = set_of_list expected')) eqn:Hb.
  - left. split; [|done]. exists names. split; [done |]. intros x.
    apply same_names with (x := x) in Hb. by rewrite Hexp.
  - right. left. split; [|done]. exists names. split; [done |]. intros H.
    assert (bool_decide (set_of_list names = set_of_list expected') = true)
      as Hb'; [|congruence].
    apply same_names. intros x. by rewrite H, Hexp.
Qed.

(** The three ways [load_data] can end. *)
Lemma load_data_outcome sys path :
  (corpus_shape sys path ∧
   load_data sys path
   = Ok (documents sys path "train" "ham", documents sys path "train" "spam",
         documents sys path "test" "ham", documents sys path "test" "spam")) ∨
  (misnamed sys path ∧ load_data sys path = Raise AssertionError) ∨
  (unlistable sys path ∧ load_data sys path = Raise OSError).
Proof.
  unfold load_data, corpus_shape, misnamed, unlistable.
  match goal with |- context [os_listdir sys path ≫= ?k] =>
    match k with (fun root => _ ≫= fun _ => ?rest) =>
      destruct (check_group_cause sys path
                  ["train"; "test"] ["test"; "train"] rest)
        as [[Hroot ->] | [[Hroot ->] | [Hroot ->]]]
    end
  end; [intros x; rewrite !elem_of_cons; tauto | | right; left; split; [tauto | done]
        | right; right; split; [tauto | done]].
  match goal with |- context [os_listdir sys (Path.join path ["test"]) ≫= ?k] =>
    match k with (fun test => _ ≫= fun _ => ?rest) =>
      destruct (check_group_cause sys (Path.join path ["test"])
                  ["ham"; "spam"] ["ham"; "spam"] rest)
        as [[Htest ->] | [[Htest ->] | [Htest ->]]]
    end
  end; [done | | right; left; split; [tauto | done] | right; right; split; [tauto | done]].
  match goal with |- context [os_listdir sys (Path.join path ["train"]) ≫= ?k] =>
    match k with (fun train => _ ≫= fun _ => ?rest) =>
      destruct (check_group_cause sys (Path.join path ["train"])
                  ["ham"; "spam"] ["ham"; "spam"] rest)
        as [[Htrain ->] | [[Htrain ->] | [Htrain ->]]]
    end
  end; [done | | right; left; split; [tauto | done] | right; right; split; [tauto | done]].
  rewrite !collect_documents.
  destruct (listdir sys (Path.join path ["train"; "ham"])) as [l1|] eqn:H1;
    [|right; right; split; [tauto | done]].
  rewrite bind_ok.
  destruct (listdir sys (Path.join path ["train"; "spam"])) as [l2|] eqn:H2;
    [|right; right; split; [tauto | done]].
  rewrite bind_ok.
  destruct (listdir sys (Path.join path ["test"; "ham"])) as [l3|] eqn:H3;
    [|right; right; split; [tauto | done]].
  rewrite bind_ok.
  destruct (listdir sys (Path.join path ["test"; "spam"])) as [l4|] eqn:H4;
    [|right; right; split; [tauto | done]].
  rewrite bind_ok. left. repeat split; by eauto.
Qed.

Lemma exact_not_wrong sys dir expected :
  lists_exactly sys dir expected → wrong_names sys dir expected → False.
Proof.
  intros (names & Hl & Hx) (names' & Hl' & Hn). apply Hn.
  assert (names' = names) as -> by congruence. done.
Qed.

Lemma exact_listable sys dir expected :
  lists_exactly sys dir expected → listdir sys dir = None → False.
Proof. intros (names & Hl & _) Hnone. congruence. Qed.

Lemma wrong_listable sys dir expected :
  wrong_names sys dir expected → listdir sys dir = None → False.
Proof. intros (names & Hl & _) Hnone. congruence. Qed.

Lemma shape_not_misnamed sys path :
  corpus_shape sys path → misnamed sys path → False.
Proof.
  intros (Hroot & Htest & Htrain & _) [H | [[_ H] | (_ & _ & H)]];
    eauto using exact_not_wrong.
Qed.

Lemma shape_not_unlistable sys path :
  corpus_shape sys path → unlistable sys path → False.
Proof.
  intros (Hroot & Htest & Htrain & [? H1] & [? H2] & [? H3] & [? H4])
    [H | [[_ H] | [(_ & _ & H) | (_ & _ & _ & [H | [H | [H | H]]])]]];
    eauto using exact_listable; congruence.
Qed.

Lemma misnamed_not_unlistable sys path :
  misnamed sys path → unlistable sys path → False.
Proof.
  intros [Hm | [[Hr Hm] | (Hr & Ht & Hm)]]
    [H | [[Hr' H] | [(Hr' & Ht' & H) | (Hr' & Ht' & Htr' & H)]]];
    eauto using exact_not_wrong, exact_listable, wrong_listable.
Qed.

(** A directory that can be listed has the expected names or other names. *)
Lemma listed_exact_or_wrong sys dir expected :
  is_Some (listdir sys dir) →
  lists_exactly sys dir expected ∨ wrong_names sys dir expected.
Proof.
  intros [names Hl]. unfold lists_exactly, wrong_names.
  destruct (bool_decide (set_of_list names = set_of_list expected)) eqn:Hb.
  - left. exists names. split; [done |]. by apply same_names.
  - right. exists names. split; [done |]. intros H.
    apply same_names in H. congruence.
Qed.

(** C9: [load_data] returns the document identifiers of train-ham,
    train-spam, test-ham and test-spam, in this order, when the root holds
    exactly the groups "train" and "test", each holds exactly the subgroups
    "ham" and "spam", and the subgroups can be listed; in every other case
    it fails. The failure is the validation error, AssertionError, exactly
    when the first directory found not as expected can be listed and has an
    extra or a missing name; it is the error of [os.listdir] exactly when
    that directory cannot be listed. In particular, when the root, "test"
    and "train" can all be listed and one of them has other names than
    expected, the failure is the validation error. *)
Theorem load_data_spec sys path :
  (corpus_shape sys path →
   load_data sys path
   = Ok (documents sys path "train" "ham", documents sys path "train" "spam",
         documents sys path "test" "ham", documents sys path "test" "spam")) ∧
  (¬ corpus_shape sys path →
   load_data sys path = Raise AssertionError ∨
   load_data sys path = Raise OSError) ∧
  (load_data sys path = Raise AssertionError ↔ misnamed sys path) ∧
  (load_data sys path = Raise OSError ↔ unlistable sys path) ∧
  (is_Some (listdir sys path) →
   is_Some (listdir sys (Path.join path ["test"])) →
   is_Some (listdir sys (Path.join path ["train"])) →
   ¬ (lists_exactly sys path ["train"; "test"] ∧
      lists_exactly sys (Path.join path ["test"]) ["ham"; "spam"] ∧
      lists_exactly sys (Path.join path ["train"]) ["ham"; "spam"]) →
   load_data sys path = Raise AssertionError).
Proof.
  assert (Hmis : misnamed sys path → load_data sys path = Raise AssertionError).
  { intros Hm.
    destruct (load_data_outcome sys path) as [[Hs _] | [[_ H] | [Hu _]]];
      [|done |].
    - by destruct (shape_not_misnamed sys path).
    - by destruct (misnamed_not_unlistable sys path). }
  split; [|split; [|split; [|split]]].
  - intros Hs.
    destruct (load_data_outcome sys path) as [[_ H] | [[Hm _] | [Hu _]]];
      [done | |].
    + by destruct (shape_not_misnamed sys path).
    + by destruct (shape_not_unlistable sys path).
  - intros Hn.
    destruct (load_data_outcome sys path) as [[Hs _] | [[_ H] | [_ H]]];
      [done | by left | by right].
  - split; [|done]. intros Herr.
    destruct (load_data_outcome sys path) as [[_ H] | [[Hm _] | [_ H]]];
      [congruence | done | congruence].
  - split.
    + intros Herr.
      destruct (load_data_outcome sys path) as [[_ H] | [[_ H] | [Hu _]]];
        [congruence | congruence | done].
    + intros Hu.
      destruct (load_data_outcome sys path) as [[Hs _] | [[Hm _] | [_ H]]];
        [| |done].
      * by destruct (shape_not_unlistable sys path).
      * by destruct (misnamed_not_unlistable sys path).
  - intros Hroot Htest Htrain Hn. apply Hmis. unfold misnamed.
    destruct (listed_exact_or_wrong sys path ["train"; "test"] Hroot)
      as [Hr | Hr]; [|by left].
    destruct (listed_exact_or_wrong sys (Path.join path ["test"])
                ["ham"; "spam"] Htest) as [Ht | Ht]; [|by right; left].
    destruct (listed_exact_or_wrong sys (Path.join path ["train"])
                ["ham"; "spam"] Htrain) as [Htr | Htr]; [|by right; right].
    by destruct Hn.
Qed.

(** ** The theorems on the small corpus *)

Lemma corpus_readable :
  Forall (readable corpus)
    ["data/train/ham/h1.txt"; "data/train/spam/s1.txt";
     "data/test/ham/h2.txt"; "data/test/spam/s2.txt"].
Proof. repeat constructor; by eexists. Qed.

Example trained_state :
  trained = {| num_train_hams := 1; num_train_spams := 1;
               word_counts_spam := {[ "free" := 1; "money" := 1 ]};
               word_counts_ham := {[ "meeting" := 1; "today" := 1 ]} |}.
Proof. by vm_compute. Qed.

Lemma fit_spec_witness :
  ∃ self',
    fit corpus init ["data/train/ham/h1.txt"] ["data/train/spam/s1.txt"]
    = (self', Ok tt) ∧
    num_train_hams self' = length ["data/train/ham/h1.txt"] ∧
    num_train_spams self' = length ["data/train/spam/s1.txt"] ∧
    (∀ t, word_counts_ham self' !! t
          = table_entry (doc_count corpus t ["data/train/ham/h1.txt"])) ∧
    (∀ t, word_counts_spam self' !! t
          = table_entry (doc_count corpus t ["data/train/spam/s1.txt"])) ∧
    (∀ before,
       fit corpus before ["data/train/ham/h1.txt"] ["data/train/spam/s1.txt"]
       = (self', Ok tt)).
Proof.
  apply (fit_spec corpus init
           ["data/train/ham/h1.txt"] ["data/train/spam/s1.txt"]);
    repeat constructor; eexists; reflexivity.
Defined.

Lemma fit_table_bounds_witness :
  (∀ t f X, f ∈ ["data/train/spam/s1.txt"] → word_set corpus f = Ok X →
            t ∈ X → is_Some (word_counts_spam trained !! t)) ∧
  (∀ t c, word_counts_spam trained !! t = Some c →
          (1 <= c <= length ["data/train/spam/s1.txt"])%nat) ∧
  (∀ t f X, f ∈ ["data/train/ham/h1.txt"] → word_set corpus f = Ok X →
            t ∈ X → is_Some (word_counts_ham trained !! t)) ∧
  (∀ t c, word_counts_ham trained !! t = Some c →
          (1 <= c <= length ["data/train/ham/h1.txt"])%nat).
Proof.
  apply (fit_table_bounds corpus init
           ["data/train/ham/h1.txt"] ["data/train/spam/s1.txt"]);
    repeat constructor; eexists; reflexivity.
Defined.

Lemma predict_in_spec_witness :
  ∃ tokens,
    NoDup tokens ∧
    (∀ t, t ∈ tokens ↔ t ∈ ({[ "free"; "money" ]} : gset string)) ∧
    let spam_score := score_in exact (word_counts_spam trained) 1 2 tokens in
    let ham_score := score_in exact (word_counts_ham trained) 1 2 tokens in
    (Py.gt exact spam_score ham_score = true →
     predict_in exact canonical_set corpus trained "data/test/spam/s2.txt"
     = Ok SPAM_LABEL) ∧
    (Py.gt exact spam_score ham_score = false →
     predict_in exact canonical_set corpus trained "data/test/spam/s2.txt"
     = Ok HAM_LABEL) ∧
    ((∀ x, Py.gt exact x x = false) → spam_score = ham_score →
     predict_in exact canonical_set corpus trained "data/test/spam/s2.txt"
     = Ok HAM_LABEL).
Proof.
  apply (predict_in_spec exact canonical_set corpus trained
           "data/test/spam/s2.txt" {[ "free"; "money" ]}).
  - intros words. unfold canonical_set, set_of_list.
    split; [apply NoDup_elements |].
    intros w. by rewrite elem_of_elements, elem_of_list_to_set.
  - vm_compute. lia.
  - vm_compute. reflexivity.
Defined.

Lemma predict_one_sided_witness :
  predict corpus (fit corpus init [] ["data/train/spam/s1.txt"]).1
          "data/test/ham/h2.txt" = Ok SPAM_LABEL ∧
  predict corpus (fit corpus init ["data/train/ham/h1.txt"] []).1
          "data/test/spam/s2.txt" = Ok HAM_LABEL.
Proof.
  split.
  - apply (proj1 (predict_one_sided corpus init "data/test/ham/h2.txt"
                    ltac:(eexists; reflexivity))).
    + discriminate.
    + repeat constructor; eexists; reflexivity.
  - apply (proj2 (predict_one_sided corpus init "data/test/spam/s2.txt"
                    ltac:(eexists; reflexivity))).
    + discriminate.
    + repeat constructor; eexists; reflexivity.
Defined.

Lemma untrained_raises_witness :
  predict corpus init "data/test/ham/h2.txt" = Raise ZeroDivisionError ∧
  accuracy corpus (fit corpus trained [] []).1
           ["data/test/ham/h2.txt"] ["data/test/spam/s2.txt"]
  = Raise ZeroDivisionError.
Proof.
  destruct (untrained_raises corpus) as (Hinit & Hfit & Hraise). split.
  - apply (Hraise init Hinit).
  - apply (Hraise _ (Hfit trained)).
Defined.

Lemma accuracy_spec_witness :
  let correct :=
    (hits corpus trained HAM_LABEL ["data/test/ham/h2.txt"]
     + hits corpus trained SPAM_LABEL ["data/test/spam/s2.txt"])%nat in
  accuracy corpus trained ["data/test/ham/h2.txt"] ["data/test/spam/s2.txt"]
  = Ok (Float.Fin (INR correct / INR 2)) ∧
  (0 <= INR correct / INR 2 <= 1)%R.
Proof.
  apply (accuracy_spec corpus trained
           ["data/test/ham/h2.txt"] ["data/test/spam/s2.txt"]).
  - vm_compute. lia.
  - repeat constructor; eexists; reflexivity.
  - repeat constructor; eexists; reflexivity.
  - simpl. lia.
Defined.

Lemma corpus_has_shape : corpus_shape corpus "data/".
Proof.
  unfold corpus_shape, lists_exactly.
  repeat split; try (eexists; reflexivity);
    (eexists; split; [reflexivity |]; intros x; rewrite !elem_of_cons; tauto).
Defined.

(** The small corpus with a stray entry in the root. *)
Lemma stray_entry_misnamed :
  misnamed (mk_os [] [("data/", ["train"; "test"; ".DS_Store"]);
                      ("data/train", ["ham"; "spam"]);
                      ("data/test", ["ham"; "spam"]);
                      ("data/train/ham", []); ("data/train/spam", []);
                      ("data/test/ham", []); ("data/test/spam", [])]) "data/".
Proof.
  left. eexists. split; [reflexivity |]. intros H.
  specialize (H ".DS_Store"). rewrite !elem_of_cons in H.
  destruct H as [H _]. destruct H as [H | [H | H]]; auto; try discriminate H.
  by apply not_elem_of_nil in H.
Defined.

(** The small corpus with the subgroup "spam" missing from "train". *)
Lemma missing_subgroup_misnamed :
  misnamed (mk_os [] [("data/", ["train"; "test"]);
                      ("data/train", ["ham"]);
                      ("data/test", ["ham"; "spam"]);
                      ("data/train/ham", []);
                      ("data/test/ham", []); ("data/test/spam", [])]) "data/".
Proof.
  right. right. split; [|split].
  - eexists. split; [reflexivity |]. done.
  - eexists. split; [reflexivity |]. done.
  - eexists. split; [reflexivity |]. intros H.
    specialize (H "spam"). rewrite !elem_of_cons in H.
    destruct H as [_ H]. destruct H as [H | H]; auto; try discriminate H.
    by apply not_elem_of_nil in H.
Defined.

(** The small corpus where "test" is not a directory. *)
Lemma test_unlistable :
  unlistable (mk_os [] [("data/", ["train"; "test"]);
                        ("data/train", ["ham"; "spam"])]) "data/".
Proof.
  right. left. split; [|reflexivity].
  eexists. split; [reflexivity |]. done.
Defined.

Lemma load_data_spec_witness :
  (corpus_shape corpus "data/" ∧
   load_data corpus "data/"
   = Ok (["data/train/ham/h1.txt"], ["data/train/spam/s1.txt"],
         ["data/test/ham/h2.txt"], ["data/test/spam/s2.txt"])) ∧
  load_data (mk_os [] [("data/", ["train"; "test"; ".DS_Store"]);
                       ("data/train", ["ham"; "spam"]);
                       ("data/test", ["ham"; "spam"]);
                       ("data/train/ham", []); ("data/train/spam", []);
                       ("data/test/ham", []); ("data/test/spam", [])]) "data/"
  = Raise AssertionError ∧
  load_data (mk_os [] [("data/", ["train"; "test"]);
                       ("data/train", ["ham"]);
                       ("data/test", ["ham"; "spam"]);
                       ("data/train/ham", []);
                       ("data/test/ham", []); ("data/test/spam", [])]) "data/"
  = Raise AssertionError ∧
  load_data (mk_os [] [("data/", ["train"; "test"]);
                       ("data/train", ["ham"; "spam"])]) "data/"
  = Raise OSError.
Proof.
  split; [|split; [|split]].
  - split; [exact corpus_has_shape |].
    exact (proj1 (load_data_spec corpus "data/") corpus_has_shape).
  - exact (proj2 (proj1 (proj2 (proj2 (load_data_spec _ "data/"))))
             stray_entry_misnamed).
  - exact (proj2 (proj1 (proj2 (proj2 (load_data_spec _ "data/"))))
             missing_subgroup_misnamed).
  - exact (proj2 (proj1 (proj2 (proj2 (proj2 (load_data_spec _ "data/")))))
             test_unlistable).
Defined.

Example predict_free_money :
  predict corpus trained "data/test/spam/s2.txt" = Ok SPAM_LABEL.
Proof.
  rewrite (predict_scores corpus trained _ {[ "free"; "money" ]})
    by (vm_compute; first [lia | reflexivity]).
  rewrite trained_state.
  cbn [num_train_hams num_train_spams word_counts_spam word_counts_ham].
  unfold score, sum_over. cbn [Nat.eqb Nat.add].
  let l := eval vm_compute in (elements ({[ "free"; "money" ]} : gset string)) in
  change (elements ({[ "free"; "money" ]} : gset string)) with l.
  cbn [foldr]. unfold token_term.
  repeat match goal with
         | |- context [get0 ?d ?k] =>
             let v := eval vm_compute in (get0 d k) in change (get0 d k) with v
         end.
  change (INR 0) with 0%R. change (INR 1) with 1%R.
  assert (ln ((0 + 1) / (1 + 2)) < ln ((1 + 1) / (1 + 2)))%R as Hlt
    by (apply ln_increasing; lra).
  cbn [Float.gt]. destruct (Rlt_dec _ _) as [_ | Hn]; [done |].
  exfalso. apply Hn. lra.
Qed.

(** A document of one token that no training document has: the two scores
    are equal, and the tie goes to ham. *)
Example predict_unknown_word :
  predict corpus trained "data/test/ham/h2.txt" = Ok HAM_LABEL.
Proof.
  rewrite (predict_scores corpus trained _ {[ "unknown_word" ]})
    by (vm_compute; first [lia | reflexivity]).
  rewrite trained_state.
  cbn [num_train_hams num_train_spams word_counts_spam word_counts_ham].
  unfold score, sum_over. cbn [Nat.eqb Nat.add].
  rewrite elements_singleton. cbn [foldr]. unfold token_term.
  repeat match goal with
         | |- context [get0 ?d ?k] =>
             let v := eval vm_compute in (get0 d k) in change (get0 d k) with v
         end.
  cbn [Float.gt]. destruct (Rlt_dec _ _) as [Hlt | _]; [lra | done].
Qed.

Example accuracy_on_test :
  accuracy corpus trained ["data/test/ham/h2.txt"] ["data/test/spam/s2.txt"]
  = Ok (Float.Fin 1).
Proof.
  unfold accuracy, count_correct. cbn [for_each].
  rewrite predict_unknown_word, predict_free_money, !bind_ok.
  cbn [String.eqb]. unfold Float.truediv. simpl. do 2 f_equal. lra.
Qed.

(** A root with one group too many fails the first assertion. *)
Example load_data_extra_group :
  load_data (mk_os [] [("data/", ["train"; "test"; "validation"])]) "data/"
  = Raise AssertionError.
Proof. by vm_compute. Qed.

(** A root whose "test" is not a directory fails in [os.listdir]. *)
Example load_data_test_not_listable :
  load_data (mk_os [] [("data/", ["train"; "test"])]) "data/" = Raise OSError.
Proof. by vm_compute. Qed.

(** * Further properties of the code *)

(** ** More on the tokenizer *)

Lemma word_set_inv sys filename X :
  word_set sys filename = Ok X →
  ∃ content text,
    read_text sys filename = Some content ∧
    chars text = normalized content ∧
    X = set_of_list (Str.split Str.SP text).
Proof.
  intros H. destruct (read_text sys filename) as [content|] eqn:Hread.
  - destruct (word_set_text sys filename content Hread) as (text & Ht & Hw).
    exists content, text. split; [done |]. split; [done |]. congruence.
  - unfold word_set in H. by rewrite Hread in H.
Qed.

Lemma split_chars sep s w c :
  w ∈ Str.split sep s → c ∈ chars w → c ∈ chars s.
Proof.
  revert w. induction s as [|x s IH]; intros w; simpl.
  - intros Hw%list_elem_of_singleton. by subst.
  - destruct (Ascii.eqb x sep).
    + intros [-> | Hw]%elem_of_cons Hc.
      * by apply not_elem_of_nil in Hc.
      * apply elem_of_cons. right. by eapply IH.
    + pose proof (split_nonempty sep s) as Hne.
      destruct (Str.split sep s) as [|w0 ws]; [done |].
      intros [-> | Hw]%elem_of_cons Hc.
      * simpl in Hc. apply elem_of_cons in Hc as [-> | Hc];
          apply elem_of_cons; [by left | right].
        apply (IH w0); [by left | done].
      * apply elem_of_cons. right. apply (IH w); [by right | done].
Qed.

Lemma normalized_chars content c :
  c ∈ normalized content → c ≠ Str.LF ∧ c ≠ Str.CR.
Proof.
  unfold normalized. intros (x & -> & Hx)%list_elem_of_fmap.
  apply list_elem_of_filter in Hx as [Hcr _].
  destruct (Ascii.eqb_spec x Str.LF) as [-> | Hlf]; [|done].
  split; discriminate.
Qed.

(** X1: the token set of a document is never empty, and no token holds a
    space, a newline or a carriage return. *)
Theorem word_set_tokens_clean sys filename X :
  word_set sys filename = Ok X →
  X ≠ ∅ ∧
  ∀ w, w ∈ X →
       (Str.SP ∉ chars w) ∧ (Str.LF ∉ chars w) ∧ (Str.CR ∉ chars w).
Proof.
  intros (content & text & _ & Htext & ->)%word_set_inv. split.
  - pose proof (split_nonempty Str.SP text) as Hne.
    destruct (Str.split Str.SP text) as [|w ws] eqn:Hs; [done |].
    intros Hempty. apply (not_elem_of_empty (C:=gset string) w).
    rewrite <- Hempty. apply elem_of_list_to_set. by left.
  - intros w Hw%elem_of_list_to_set. split.
    + pose proof (split_sep_free Str.SP text) as Hfree.
      rewrite Forall_forall in Hfree. by apply Hfree.
    + assert (∀ c, c ∈ chars w → c ≠ Str.LF ∧ c ≠ Str.CR) as Hc.
      { intros c Hc. apply (normalized_chars content). rewrite <- Htext.
        by eapply split_chars. }
      split; intros Hin; by destruct (Hc _ Hin).
Qed.

Lemma word_set_tokens_clean_witness :
  ({[ "free"; "money" ]} : gset string) ≠ ∅ ∧
  ∀ w, w ∈ ({[ "free"; "money" ]} : gset string) →
       (Str.SP ∉ chars w) ∧ (Str.LF ∉ chars w) ∧ (Str.CR ∉ chars w).
Proof.
  apply (word_set_tokens_clean corpus "data/test/spam/s2.txt").
  vm_compute. reflexivity.
Defined.

Lemma slice_from_short n s :
  (String.length s <= n)%nat → Str.slice_from n s = "".
Proof.
  revert s. induction n as [|n IH]; intros [|c s]; simpl; try done; try lia.
  intros H. apply IH. lia.
Qed.

(** X2: a document of at most 9 characters, the empty file included, has
    the empty token as its only token. *)
Theorem word_set_short sys filename content :
  read_text sys filename = Some content →
  (String.length content <= 9)%nat →
  word_set sys filename = Ok {[ "" ]}.
Proof.
  intros Hread Hlen. unfold word_set. rewrite Hread.
  rewrite slice_from_short by done. by vm_compute.
Qed.

Lemma word_set_short_witness :
  word_set (one_mail "Subject:") "mail.txt" = Ok {[ "" ]}.
Proof.
  apply (word_set_short (one_mail "Subject:") "mail.txt" "Subject:").
  - reflexivity.
  - simpl. lia.
Defined.

(** X3: the tokens depend on the content only through the text left after
    the first 9 characters are dropped, the carriage returns deleted and the
    newlines turned into spaces: two documents that differ only in their
    first 9 characters, in carriage returns, or in having a newline where
    the other has a space, have the same token set. *)
Theorem word_set_normalized sys filename1 filename2 content1 content2 :
  read_text sys filename1 = Some content1 →
  read_text sys filename2 = Some content2 →
  normalized content1 = normalized content2 →
  word_set sys filename1 = word_set sys filename2.
Proof.
  intros H1 H2 Hn.
  destruct (word_set_text sys filename1 content1 H1) as (t1 & Ht1 & ->).
  destruct (word_set_text sys filename2 content2 H2) as (t2 & Ht2 & ->).
  rewrite <- Ht1, <- Ht2 in Hn. apply chars_inj in Hn. by rewrite Hn.
Qed.

Lemma replace_absent c new s : c ∉ chars s → Str.replace c new s = s.
Proof.
  induction s as [|x s IH]; simpl; [done |].
  rewrite not_elem_of_cons. intros [Hne Hs].
  destruct (Ascii.eqb_spec x c) as [-> | _]; [done |]. by rewrite IH.
Qed.

Lemma slice_from_app h s :
  Str.slice_from (String.length h) (h ++ s) = s.
Proof. induction h as [|c h IH]; simpl; [by destruct s | done]. Qed.

Lemma join_chars sep ws c :
  c ∈ chars (Str.join (String sep "") ws) →
  c = sep ∨ ∃ w, w ∈ ws ∧ c ∈ chars w.
Proof.
  induction ws as [|w ws IH]; simpl.
  - intros H. by apply not_elem_of_nil in H.
  - destruct ws as [|w' ws].
    + intros H. right. exists w. split; [by left | done].
    + rewrite chars_app. intros [H | H]%elem_of_app.
      * right. exists w. split; [by left | done].
      * change (String sep "" ++ ?x) with (String sep x) in H.
        simpl in H. apply elem_of_cons in H as [-> | H]; [by left |].
        destruct (IH H) as [-> | (w0 & Hw0 & Hc)]; [by left |].
        right. exists w0. split; [by right | done].
Qed.

(** A word without space, newline or carriage return. *)
Lemma clean_join ws c :
  Forall (fun w => c ∉ chars w) ws → c ≠ Str.SP →
  c ∉ chars (Str.join " " ws).
Proof.
  intros Hws Hc Hin. change " " with (String Str.SP "") in Hin.
  apply join_chars in Hin as [-> | (w & Hw & Hin)]; [done |].
  rewrite Forall_forall in Hws. by apply (Hws w).
Qed.

Lemma word_set_join_words sys filename header words :
  String.length header = 9%nat →
  words ≠ [] →
  Forall (fun w => Str.SP ∉ chars w) words →
  Forall (fun w => Str.LF ∉ chars w) words →
  Forall (fun w => Str.CR ∉ chars w) words →
  read_text sys filename = Some (header ++ Str.join " " words) →
  word_set sys filename = Ok (list_to_set words).
Proof.
  intros Hlen Hne Hsp Hlf Hcr Hread. unfold word_set. rewrite Hread.
  rewrite <- Hlen, slice_from_app.
  rewrite (replace_absent Str.CR) by (by apply clean_join).
  rewrite (replace_absent Str.LF) by (by apply clean_join).
  change " " with (String Str.SP ""). by rewrite split_of_join.
Qed.

(** X4: a document made of any 9 characters followed by words joined with
    single spaces, the words holding no space, newline or carriage return,
    has exactly these words as its tokens: their order and their repetitions
    are forgotten. *)
Theorem word_set_of_join sys filename header words :
  String.length header = 9%nat →
  words ≠ [] →
  Forall (fun w => Str.SP ∉ chars w) words →
  Forall (fun w => Str.LF ∉ chars w) words →
  Forall (fun w => Str.CR ∉ chars w) words →
  read_text sys filename = Some (header ++ Str.join " " words) →
  word_set sys filename = Ok (list_to_set words).
Proof. apply word_set_join_words. Qed.

Lemma word_set_of_join_witness :
  word_set (one_mail "Subject: money free money") "mail.txt"
  = Ok (list_to_set ["money"; "free"; "money"]).
Proof.
  apply (word_set_of_join (one_mail "Subject: money free money") "mail.txt"
           "Subject: " ["money"; "free"; "money"]).
  - reflexivity.
  - discriminate.
  - repeat constructor; vm_compute; intros H;
      repeat (apply elem_of_cons in H as [H | H]; [discriminate H |]);
      by apply not_elem_of_nil in H.
  - repeat constructor; vm_compute; intros H;
      repeat (apply elem_of_cons in H as [H | H]; [discriminate H |]);
      by apply not_elem_of_nil in H.
  - repeat constructor; vm_compute; intros H;
      repeat (apply elem_of_cons in H as [H | H]; [discriminate H |]);
      by apply not_elem_of_nil in H.
  - reflexivity.
Defined.

Lemma word_set_normalized_witness :
  word_set (mk_os [("a.txt", "Subject: free" ++ String Str.LF "money");
                   ("b.txt", "Re(2):...free money")] []) "a.txt"
  = word_set (mk_os [("a.txt", "Subject: free" ++ String Str.LF "money");
                     ("b.txt", "Re(2):...free money")] []) "b.txt".
Proof.
  eapply word_set_normalized; reflexivity.
Defined.

(** ** More on training *)

Lemma word_set_unreadable sys filename :
  read_text sys filename = None → word_set sys filename = Raise OSError.
Proof. intros H. unfold word_set. by rewrite H. Qed.

Lemma get_counts_loop_unreadable sys files (d : gmap string nat) :
  Exists (fun f => read_text sys f = None) files →
  for_each
    (fun file dict1 =>
       set1 ← word_set sys file;
       for_each (fun word dict1 => Ok (count_word word dict1))
                (elements set1) dict1)
    files d = Raise OSError.
Proof.
  intros Hex. revert d. induction files as [|f files IH]; intros d.
  - by apply Exists_nil in Hex.
  - cbn [for_each]. destruct (read_text sys f) as [content|] eqn:Hread.
    + destruct (word_set_readable sys f) as [X HX]; [by eexists |].
      rewrite HX, bind_ok.
      destruct (count_words_loop (elements X) d (NoDup_elements X))
        as (d1 & -> & _).
      rewrite bind_ok. apply IH.
      apply Exists_cons in Hex as [Hf | Hex]; [congruence | done].
    + by rewrite word_set_unreadable.
Qed.

Lemma get_counts_unreadable sys files :
  Exists (fun f => read_text sys f = None) files →
  get_counts sys files = Raise OSError.
Proof. apply get_counts_loop_unreadable. Qed.

(** X5: [fit] is not all-or-nothing. With an unreadable spam document it
    raises after the two counters are overwritten, the two tables being the
    old ones; with readable spam documents and an unreadable ham document it
    raises after the spam table is overwritten too, the ham table being the
    old one. *)
Theorem fit_unreadable sys self train_hams train_spams :
  (Exists (fun f => read_text sys f = None) train_spams →
   fit sys self train_hams train_spams
   = ({| num_train_hams := length train_hams;
         num_train_spams := length train_spams;
         word_counts_spam := word_counts_spam self;
         word_counts_ham := word_counts_ham self |}, Raise OSError)) ∧
  (Forall (readable sys) train_spams →
   Exists (fun f => read_text sys f = None) train_hams →
   ∃ ds, get_counts sys train_spams = Ok ds ∧
         fit sys self train_hams train_spams
         = ({| num_train_hams := length train_hams;
               num_train_spams := length train_spams;
               word_counts_spam := ds;
               word_counts_ham := word_counts_ham self |}, Raise OSError)).
Proof.
  split.
  - intros Hs. unfold fit. by rewrite (get_counts_unreadable sys train_spams).
  - intros Hs Hh.
    destruct (get_counts_lookup sys train_spams Hs) as (ds & Hds & _).
    exists ds. split; [done |]. unfold fit.
    by rewrite Hds, (get_counts_unreadable sys train_hams).
Qed.

Lemma fit_unreadable_witness :
  fit corpus trained ["data/train/ham/h1.txt"] ["missing.txt"]
  = ({| num_train_hams := 1; num_train_spams := 1;
        word_counts_spam := word_counts_spam trained;
        word_counts_ham := word_counts_ham trained |}, Raise OSError) ∧
  ∃ ds, get_counts corpus ["data/train/spam/s1.txt"; "data/test/spam/s2.txt"]
        = Ok ds ∧
        fit corpus trained ["missing.txt"]
            ["data/train/spam/s1.txt"; "data/test/spam/s2.txt"]
        = ({| num_train_hams := 1; num_train_spams := 2;
              word_counts_spam := ds;
              word_counts_ham := word_counts_ham trained |}, Raise OSError).
Proof.
  split.
  - apply (proj1 (fit_unreadable corpus trained
                    ["data/train/ham/h1.txt"] ["missing.txt"])).
    apply Exists_cons_hd. reflexivity.
  - apply (proj2 (fit_unreadable corpus trained ["missing.txt"]
                    ["data/train/spam/s1.txt"; "data/test/spam/s2.txt"])).
    + repeat constructor; eexists; reflexivity.
    + apply Exists_cons_hd. reflexivity.
Defined.

Lemma doc_count_app sys t l1 l2 :
  doc_count sys t (l1 ++ l2) = (doc_count sys t l1 + doc_count sys t l2)%nat.
Proof.
  induction l1 as [|f l1 IH]; [done |].
  change ((f :: l1) ++ l2)%list with (f :: (l1 ++ l2))%list.
  rewrite !doc_count_cons, IH. lia.
Qed.

Lemma doc_count_perm sys t l1 l2 :
  l1 ≡ₚ l2 → doc_count sys t l1 = doc_count sys t l2.
Proof.
  induction 1 as [|f l1 l2 _ IH|f g l|l1 l2 l3 _ IH1 _ IH2].
  - done.
  - by rewrite !doc_count_cons, IH.
  - rewrite !doc_count_cons. lia.
  - congruence.
Qed.

Lemma get0_table_entry (d : gmap string nat) t n :
  d !! t = table_entry n → get0 d t = n.
Proof.
  unfold get0, table_entry. intros ->. by destruct (Nat.eqb_spec n 0).
Qed.

(** X6: the order of the training documents does not matter: [fit] on
    rearranged collections of readable documents gives the same state. *)
Theorem fit_permutation sys self train_hams train_spams hams' spams' :
  Forall (readable sys) train_hams → Forall (readable sys) train_spams →
  train_hams ≡ₚ hams' → train_spams ≡ₚ spams' →
  fit sys self hams' spams' = fit sys self train_hams train_spams.
Proof.
  intros Hh Hs Hph Hps.
  assert (Forall (readable sys) hams') as Hh' by (by rewrite <- Hph).
  assert (Forall (readable sys) spams') as Hs' by (by rewrite <- Hps).
  destruct (fit_ok sys train_hams train_spams Hh Hs)
    as (dh & ds & Hdh & Hds & ->).
  destruct (fit_ok sys hams' spams' Hh' Hs')
    as (dh' & ds' & Hdh' & Hds' & ->).
  rewrite <- (Permutation_length Hph), <- (Permutation_length Hps).
  assert (dh' = dh) as ->.
  { apply map_eq. intros t.
    by rewrite Hdh, Hdh', (doc_count_perm sys t _ _ Hph). }
  assert (ds' = ds) as ->.
  { apply map_eq. intros t.
    by rewrite Hds, Hds', (doc_count_perm sys t _ _ Hps). }
  done.
Qed.

Lemma fit_permutation_witness :
  fit corpus init ["data/test/ham/h2.txt"; "data/train/ham/h1.txt"]
      ["data/test/spam/s2.txt"; "data/train/spam/s1.txt"]
  = fit corpus init ["data/train/ham/h1.txt"; "data/test/ham/h2.txt"]
        ["data/train/spam/s1.txt"; "data/test/spam/s2.txt"].
Proof.
  apply fit_permutation.
  - repeat constructor; eexists; reflexivity.
  - repeat constructor; eexists; reflexivity.
  - apply perm_swap.
  - apply perm_swap.
Defined.

(** X7: counting is additive: the table of two collections of readable
    documents put end to end has, for every token, the sum of the counts of
    the two tables, a missing key counting 0. *)
Theorem get_counts_app sys files1 files2 :
  Forall (readable sys) files1 → Forall (readable sys) files2 →
  ∃ d1 d2 d,
    get_counts sys files1 = Ok d1 ∧ get_counts sys files2 = Ok d2 ∧
    get_counts sys (files1 ++ files2) = Ok d ∧
    ∀ t, get0 d t = (get0 d1 t + get0 d2 t)%nat.
Proof.
  intros H1 H2.
  destruct (get_counts_lookup sys files1 H1) as (d1 & Hd1 & Hl1).
  destruct (get_counts_lookup sys files2 H2) as (d2 & Hd2 & Hl2).
  destruct (get_counts_lookup sys (files1 ++ files2)) as (d & Hd & Hl).
  { by apply Forall_app. }
  exists d1, d2, d. repeat split; try done. intros t.
  rewrite (get0_table_entry d t _ (Hl t)), (get0_table_entry d1 t _ (Hl1 t)),
    (get0_table_entry d2 t _ (Hl2 t)).
  apply doc_count_app.
Qed.

Lemma get_counts_app_witness :
  ∃ d1 d2 d,
    get_counts corpus ["data/train/spam/s1.txt"] = Ok d1 ∧
    get_counts corpus ["data/test/spam/s2.txt"] = Ok d2 ∧
    get_counts corpus (["data/train/spam/s1.txt"] ++ ["data/test/spam/s2.txt"])
    = Ok d ∧
    ∀ t, get0 d t = (get0 d1 t + get0 d2 t)%nat.
Proof.
  apply get_counts_app; repeat constructor; eexists; reflexivity.
Defined.

Lemma doc_count_pos_inv sys t files :
  (1 <= doc_count sys t files)%nat →
  ∃ f, f ∈ files ∧ contains sys t f = true.
Proof.
  induction files as [|f files IH]; [unfold doc_count; simpl; lia |].
  rewrite doc_count_cons. destruct (contains sys t f) eqn:Hc.
  - intros _. exists f. split; [by left | done].
  - intros H. destruct IH as (g & Hg & Hcg); [simpl in H; lia |].
    exists g. split; [by right | done].
Qed.

(** X8: the tables hold nothing but tokens of training documents: after
    [fit] on readable documents every key of the spam table is in the token
    set of a spam training document, and every key of the ham table in the
    token set of a ham training document. *)
Theorem fit_keys_from_documents sys self train_hams train_spams :
  Forall (readable sys) train_hams → Forall (readable sys) train_spams →
  let self' := (fit sys self train_hams train_spams).1 in
  (∀ t, is_Some (word_counts_spam self' !! t) →
        ∃ f X, f ∈ train_spams ∧ word_set sys f = Ok X ∧ t ∈ X) ∧
  (∀ t, is_Some (word_counts_ham self' !! t) →
        ∃ f X, f ∈ train_hams ∧ word_set sys f = Ok X ∧ t ∈ X).
Proof.
  intros Hh Hs.
  destruct (fit_ok sys train_hams train_spams Hh Hs)
    as (dh & ds & Hdh & Hds & Hfit).
  rewrite Hfit. simpl.
  assert (Hkey : ∀ files t, is_Some (table_entry (doc_count sys t files)) →
                 ∃ f X, f ∈ files ∧ word_set sys f = Ok X ∧ t ∈ X).
  { intros files t [c Hc]. apply table_entry_Some in Hc as [_ Hpos].
    destruct (doc_count_pos_inv sys t files Hpos) as (f & Hf & Hc).
    unfold contains in Hc. destruct (word_set sys f) as [X|] eqn:HX; [|done].
    exists f, X. split; [done |]. split; [done |].
    by apply bool_decide_eq_true in Hc. }
  split; intros t Ht; apply Hkey; by rewrite <- ?Hds, <- ?Hdh.
Qed.

Lemma fit_keys_from_documents_witness :
  (∀ t, is_Some (word_counts_spam trained !! t) →
        ∃ f X, f ∈ ["data/train/spam/s1.txt"] ∧
               word_set corpus f = Ok X ∧ t ∈ X) ∧
  (∀ t, is_Some (word_counts_ham trained !! t) →
        ∃ f X, f ∈ ["data/train/ham/h1.txt"] ∧
               word_set corpus f = Ok X ∧ t ∈ X).
Proof.
  apply (fit_keys_from_documents corpus init
           ["data/train/ham/h1.txt"] ["data/train/spam/s1.txt"]);
    repeat constructor; eexists; reflexivity.
Defined.

Lemma ratio_lt_1 c n :
  (c <= n)%nat → ((INR c + 1) / (INR n + 2) < 1)%R.
Proof.
  intros Hle. apply le_INR in Hle. pose proof (pos_INR n).
  apply (Rmult_lt_reg_r (INR n + 2)); [lra |].
  unfold Rdiv. rewrite Rmult_assoc, Rinv_l by lra. lra.
Qed.

(** X9: after [fit] on readable documents the smoothed ratio
    (count + 1) / (num_train + 2) of every token lies strictly between 0
    and 1 for both labels, so every term that [predict] adds to a sum is a
    negative number. *)
Theorem fit_smoothing_bound sys self train_hams train_spams t :
  Forall (readable sys) train_hams → Forall (readable sys) train_spams →
  let self' := (fit sys self train_hams train_spams).1 in
  (0 < (INR (get0 (word_counts_spam self') t) + 1)
       / (INR (num_train_spams self') + 2) < 1)%R ∧
  (0 < (INR (get0 (word_counts_ham self') t) + 1)
       / (INR (num_train_hams self') + 2) < 1)%R ∧
  (token_term (word_counts_spam self') (num_train_spams self') t < 0)%R ∧
  (token_term (word_counts_ham self') (num_train_hams self') t < 0)%R.
Proof.
  intros Hh Hs.
  destruct (fit_ok sys train_hams train_spams Hh Hs)
    as (dh & ds & Hdh & Hds & Hfit).
  rewrite Hfit. simpl.
  assert (get0 ds t <= length train_spams)%nat as Hcs.
  { rewrite (get0_table_entry ds t _ (Hds t)). apply doc_count_le. }
  assert (get0 dh t <= length train_hams)%nat as Hch.
  { rewrite (get0_table_entry dh t _ (Hdh t)). apply doc_count_le. }
  pose proof (ratio_pos (get0 ds t) (length train_spams)) as Hs0.
  pose proof (ratio_pos (get0 dh t) (length train_hams)) as Hh0.
  pose proof (ratio_lt_1 _ _ Hcs) as Hs1.
  pose proof (ratio_lt_1 _ _ Hch) as Hh1.
  unfold token_term. repeat split; try done.
  - rewrite <- ln_1. by apply ln_increasing.
  - rewrite <- ln_1. by apply ln_increasing.
Qed.

Lemma fit_smoothing_bound_witness :
  (0 < (INR (get0 (word_counts_spam trained) "free") + 1)
       / (INR (num_train_spams trained) + 2) < 1)%R ∧
  (0 < (INR (get0 (word_counts_ham trained) "free") + 1)
       / (INR (num_train_hams trained) + 2) < 1)%R ∧
  (token_term (word_counts_spam trained) (num_train_spams trained) "free"
   < 0)%R ∧
  (token_term (word_counts_ham trained) (num_train_hams trained) "free"
   < 0)%R.
Proof.
  apply (fit_smoothing_bound corpus init
           ["data/train/ham/h1.txt"] ["data/train/spam/s1.txt"] "free");
    repeat constructor; eexists; reflexivity.
Defined.

(** ** More on prediction *)

Lemma predict_unreadable sys self filename :
  (0 < num_train_hams self + num_train_spams self)%nat →
  read_text sys filename = None →
  predict sys self filename = Raise OSError.
Proof.
  intros Htot Hread. unfold predict.
  rewrite !truediv_ok by lia. rewrite !bind_ok.
  by rewrite word_set_unreadable.
Qed.

(** X10: on a state with at least one training document [predict] raises
    the read error on a document that cannot be read, and returns one of
    the two labels, and nothing else, on a document that can. *)
Theorem predict_outcome sys self filename :
  (0 < num_train_hams self + num_train_spams self)%nat →
  (read_text sys filename = None →
   predict sys self filename = Raise OSError) ∧
  (readable sys filename →
   predict sys self filename = Ok HAM_LABEL ∨
   predict sys self filename = Ok SPAM_LABEL).
Proof.
  intros Htot. split; [by apply predict_unreadable |].
  intros Hr. destruct (word_set_readable sys filename Hr) as [X HX].
  rewrite (predict_scores sys self filename X Htot HX).
  destruct (Float.gt _ _); auto.
Qed.

Lemma predict_outcome_witness :
  predict corpus trained "missing.txt" = Raise OSError ∧
  (predict corpus trained "data/test/ham/h2.txt" = Ok HAM_LABEL ∨
   predict corpus trained "data/test/ham/h2.txt" = Ok SPAM_LABEL).
Proof.
  split.
  - apply (proj1 (predict_outcome corpus trained "missing.txt"
                    ltac:(vm_compute; lia))).
    reflexivity.
  - apply (proj2 (predict_outcome corpus trained "data/test/ham/h2.txt"
                    ltac:(vm_compute; lia))).
    eexists; reflexivity.
Defined.

Lemma sum_over_ext (X : gset string) g h :
  (∀ t, t ∈ X → g t = h t) → sum_over X g = sum_over X h.
Proof.
  intros Hext. unfold sum_over.
  assert (∀ t, t ∈ elements X → g t = h t) as Hl.
  { intros t Ht. apply Hext. by apply elem_of_elements. }
  induction (elements X) as [|t l IH]; simpl; [done |].
  rewrite (Hl t) by (by left). rewrite IH; [done |].
  intros t' Ht'. apply Hl. by right.
Qed.

Lemma gt_irrefl x : Float.gt x x = false.
Proof.
  destruct x as [| | |a]; simpl; try done.
  destruct (Rlt_dec a a); [lra | done].
Qed.

(** X12: a tie goes to ham. When the two labels have the same number of
    training documents, at least one each, and every token of a readable
    document has the same count in the two tables (tokens in neither table
    included), [predict] returns the ham label. *)
Theorem predict_tie sys self filename X :
  num_train_hams self = num_train_spams self →
  (0 < num_train_spams self)%nat →
  word_set sys filename = Ok X →
  (∀ t, t ∈ X → get0 (word_counts_spam self) t = get0 (word_counts_ham self) t) →
  predict sys self filename = Ok HAM_LABEL.
Proof.
  intros Hn Hpos HX Hsame.
  rewrite (predict_scores sys self filename X) by (done || lia).
  rewrite Hn.
  assert (score (word_counts_spam self) (num_train_spams self)
                (num_train_spams self + num_train_spams self) X
          = score (word_counts_ham self) (num_train_spams self)
                  (num_train_spams self + num_train_spams self) X) as ->.
  { unfold score. destruct (Nat.eqb _ 0); [done |]. do 2 f_equal.
    apply sum_over_ext. intros t Ht. unfold token_term. by rewrite Hsame. }
  by rewrite gt_irrefl.
Qed.

Lemma predict_tie_witness :
  predict corpus trained "data/test/ham/h2.txt" = Ok HAM_LABEL.
Proof.
  apply (predict_tie corpus trained "data/test/ham/h2.txt"
           {[ "unknown_word" ]}).
  - reflexivity.
  - vm_compute. lia.
  - vm_compute. reflexivity.
  - intros t Ht%elem_of_singleton. subst t. reflexivity.
Defined.

(** ** More on accuracy *)

Lemma hits_cons sys self label f files :
  hits sys self label (f :: files)
  = ((match predict sys self f with
      | Ok l => if String.eqb l label then 1 else 0
      | Raise _ => 0
      end) + hits sys self label files)%nat.
Proof.
  unfold hits. simpl. destruct (predict sys self f) as [l|]; [|done].
  by destruct (String.eqb l label).
Qed.

Lemma count_correct_unreadable sys self label files tc :
  (0 < num_train_hams self + num_train_spams self)%nat →
  Exists (fun f => read_text sys f = None) files →
  count_correct sys self label files tc = Raise OSError.
Proof.
  intros Htot Hex. revert tc. unfold count_correct.
  induction files as [|f files IH]; intros tc.
  - by apply Exists_nil in Hex.
  - cbn [for_each]. destruct (read_text sys f) as [content|] eqn:Hread.
    + destruct (predict_label sys self f Htot) as [l ->]; [by eexists |].
      rewrite !bind_ok. apply IH.
      apply Exists_cons in Hex as [Hf | Hex]; [congruence | done].
    + by rewrite predict_unreadable.
Qed.

Lemma count_correct_outcome sys self label files tc :
  (0 < num_train_hams self + num_train_spams self)%nat →
  count_correct sys self label files tc
  = Ok (tc + hits sys self label files)%nat ∨
  count_correct sys self label files tc = Raise OSError.
Proof.
  intros Htot.
  destruct (decide (Exists (fun f => read_text sys f = None) files)) as [H | H].
  - right. by apply count_correct_unreadable.
  - left. apply count_correct_hits; [done |].
    apply Forall_forall. intros f Hf.
    destruct (read_text sys f) as [content|] eqn:Hread; [by eexists |].
    exfalso. apply H. apply Exists_exists. by exists f.
Qed.

(** X15: on a state with a training document, [accuracy] raises the read
    error as soon as one document of either collection cannot be read: no
    document is skipped. *)
Theorem accuracy_unreadable sys self hams spams :
  (0 < num_train_hams self + num_train_spams self)%nat →
  Exists (fun f => read_text sys f = None) (hams ++ spams) →
  accuracy sys self hams spams = Raise OSError.
Proof.
  intros Htot [Hh | Hs]%Exists_app; unfold accuracy.
  - by rewrite count_correct_unreadable.
  - destruct (count_correct_outcome sys self HAM_LABEL hams 0 Htot) as [-> | ->];
      [|done].
    rewrite bind_ok. by rewrite count_correct_unreadable.
Qed.

Lemma accuracy_unreadable_witness :
  accuracy corpus trained ["data/test/ham/h2.txt"]
           ["data/test/spam/s2.txt"; "missing.txt"] = Raise OSError.
Proof.
  apply accuracy_unreadable.
  - vm_compute. lia.
  - apply Exists_cons_tl, Exists_cons_tl, Exists_cons_hd. reflexivity.
Defined.

Lemma hits_perm sys self label l1 l2 :
  l1 ≡ₚ l2 → hits sys self label l1 = hits sys self label l2.
Proof.
  induction 1 as [|f l1 l2 _ IH|f g l|l1 l2 l3 _ IH1 _ IH2].
  - done.
  - by rewrite !hits_cons, IH.
  - rewrite !hits_cons. lia.
  - congruence.
Qed.

(** X16: the order of the documents does not matter to [accuracy]: on a
    state with a training document and readable documents, rearranged
    collections give the same value. *)
Theorem accuracy_permutation sys self hams spams hams' spams' :
  (0 < num_train_hams self + num_train_spams self)%nat →
  Forall (readable sys) hams → Forall (readable sys) spams →
  hams ≡ₚ hams' → spams ≡ₚ spams' →
  accuracy sys self hams' spams' = accuracy sys self hams spams.
Proof.
  intros Htot Hh Hs Hph Hps.
  assert (Forall (readable sys) hams') as Hh' by (by rewrite <- Hph).
  assert (Forall (readable sys) spams') as Hs' by (by rewrite <- Hps).
  unfold accuracy. rewrite !count_correct_hits by done. rewrite !bind_ok.
  rewrite !count_correct_hits by done. rewrite !bind_ok.
  by rewrite (hits_perm _ _ _ _ _ Hph), (hits_perm _ _ _ _ _ Hps),
    (Permutation_length Hph), (Permutation_length Hps).
Qed.

Lemma accuracy_permutation_witness :
  accuracy corpus trained ["data/train/ham/h1.txt"; "data/test/ham/h2.txt"]
           ["data/test/spam/s2.txt"]
  = accuracy corpus trained ["data/test/ham/h2.txt"; "data/train/ham/h1.txt"]
             ["data/test/spam/s2.txt"].
Proof.
  apply accuracy_permutation.
  - vm_compute. lia.
  - repeat constructor; eexists; reflexivity.
  - repeat constructor; eexists; reflexivity.
  - apply perm_swap.
  - reflexivity.
Defined.

Lemma predict_two_labels sys self f :
  (0 < num_train_hams self + num_train_spams self)%nat →
  readable sys f →
  predict sys self f = Ok HAM_LABEL ∨ predict sys self f = Ok SPAM_LABEL.
Proof.
  intros Htot Hr. destruct (word_set_readable sys f Hr) as [X HX].
  rewrite (predict_scores sys self f X Htot HX).
  destruct (Float.gt _ _); auto.
Qed.

Lemma hits_partition sys self files :
  (0 < num_train_hams self + num_train_spams self)%nat →
  Forall (readable sys) files →
  (hits sys self HAM_LABEL files + hits sys self SPAM_LABEL files
   = length files)%nat.
Proof.
  intros Htot Hr. induction Hr as [|f files Hf Hr IH]; [done |].
  rewrite !hits_cons.
  destruct (predict_two_labels sys self f Htot Hf) as [-> | ->];
    simpl; lia.
Qed.

(** X17: every readable document counts for exactly one of the two labels:
    on a state with a training document, the accuracy of a non-empty
    collection of readable documents taken as ham and its accuracy taken as
    spam add up to 1. *)
Theorem accuracy_complement sys self files :
  (0 < num_train_hams self + num_train_spams self)%nat →
  Forall (readable sys) files → files ≠ [] →
  ∃ a b, accuracy sys self files [] = Ok (Float.Fin a) ∧
         accuracy sys self [] files = Ok (Float.Fin b) ∧
         (a + b = 1)%R.
Proof.
  intros Htot Hr Hne.
  assert (0 < length files)%nat as Hlen
    by (destruct files; [done | simpl; lia]).
  exists (INR (hits sys self HAM_LABEL files) / INR (length files))%R,
         (INR (hits sys self SPAM_LABEL files) / INR (length files))%R.
  split; [|split].
  - unfold accuracy. rewrite count_correct_hits by done.
    rewrite bind_ok, count_correct_nil, bind_ok.
    rewrite truediv_ok by (simpl; lia). simpl length.
    by rewrite !Nat.add_0_r.
  - unfold accuracy. rewrite count_correct_nil, bind_ok.
    rewrite count_correct_hits by done. rewrite bind_ok.
    by rewrite truediv_ok by (simpl; lia).
  - pose proof (hits_partition sys self files Htot Hr) as Hp.
    apply (f_equal INR) in Hp. rewrite plus_INR in Hp.
    assert (0 < INR (length files))%R by (by apply lt_0_INR).
    field_simplify_eq; [lra | lra].
Qed.

Lemma accuracy_complement_witness :
  ∃ a b,
    accuracy corpus trained
             ["data/test/ham/h2.txt"; "data/test/spam/s2.txt"] []
    = Ok (Float.Fin a) ∧
    accuracy corpus trained []
             ["data/test/ham/h2.txt"; "data/test/spam/s2.txt"]
    = Ok (Float.Fin b) ∧
    (a + b = 1)%R.
Proof.
  apply accuracy_complement.
  - vm_compute. lia.
  - repeat constructor; eexists; reflexivity.
  - discriminate.
Defined.

Lemma hits_all sys self label files :
  hits sys self label files = length files
  ↔ ∀ f, f ∈ files → predict sys self f = Ok label.
Proof.
  induction files as [|f files IH].
  - split; [|done]. intros _ f Hf. by apply not_elem_of_nil in Hf.
  - rewrite hits_cons. pose proof (hits_le sys self label files) as Hle.
    simpl length. split.
    + intros Heq f' Hf'.
      destruct (predict sys self f) as [l|] eqn:Hp; [|lia].
      destruct (String.eqb_spec l label) as [-> | Hne]; [|lia].
      apply elem_of_cons in Hf' as [-> | Hf']; [done |].
      apply IH; [lia | done].
    + intros Hall. rewrite (Hall f) by (by left).
      rewrite String.eqb_refl.
      assert (hits sys self label files = length files) as ->; [|lia].
      apply IH. intros f' Hf'. apply Hall. by right.
Qed.

(** X18: on a state with a training document and readable documents, at
    least one, [accuracy] returns 1 exactly when every document of the
    first collection is predicted ham and every document of the second is
    predicted spam. *)
Theorem accuracy_one_iff sys self hams spams :
  (0 < num_train_hams self + num_train_spams self)%nat →
  Forall (readable sys) hams → Forall (readable sys) spams →
  (0 < length hams + length spams)%nat →
  accuracy sys self hams spams = Ok (Float.Fin 1)
  ↔ (∀ f, f ∈ hams → predict sys self f = Ok HAM_LABEL) ∧
    (∀ f, f ∈ spams → predict sys self f = Ok SPAM_LABEL).
Proof.
  intros Htot Hh Hs Hlen. rewrite <- !hits_all.
  pose proof (hits_le sys self HAM_LABEL hams) as Hle1.
  pose proof (hits_le sys self SPAM_LABEL spams) as Hle2.
  unfold accuracy. rewrite (count_correct_hits sys self _ hams) by done.
  rewrite bind_ok, (count_correct_hits sys self _ spams) by done.
  rewrite bind_ok, truediv_ok by lia. simpl Nat.add.
  assert (0 < INR (length hams + length spams))%R as Hpos
    by (apply lt_0_INR; lia).
  split.
  - intros [= Heq].
    assert (INR (hits sys self HAM_LABEL hams + hits sys self SPAM_LABEL spams)
            = INR (length hams + length spams)) as Hinr.
    { apply (Rmult_eq_reg_r (/ INR (length hams + length spams))).
      - fold (Rdiv (INR (hits sys self HAM_LABEL hams
                         + hits sys self SPAM_LABEL spams))
                   (INR (length hams + length spams))).
        rewrite Heq. rewrite Rinv_r; lra.
      - apply Rinv_neq_0_compat. lra. }
    apply INR_eq in Hinr. lia.
  - intros [-> ->]. do 2 f_equal. unfold Rdiv. rewrite Rinv_r; lra.
Qed.

Lemma accuracy_one_iff_witness :
  accuracy corpus trained ["data/test/ham/h2.txt"] ["data/test/spam/s2.txt"]
  = Ok (Float.Fin 1)
  ↔ (∀ f, f ∈ ["data/test/ham/h2.txt"] →
          predict corpus trained f = Ok HAM_LABEL) ∧
    (∀ f, f ∈ ["data/test/spam/s2.txt"] →
          predict corpus trained f = Ok SPAM_LABEL).
Proof.
  apply accuracy_one_iff.
  - vm_compute. lia.
  - repeat constructor; eexists; reflexivity.
  - repeat constructor; eexists; reflexivity.
  - simpl. lia.
Defined.

(** A state with spam training documents only answers spam, and a state
    with ham training documents only answers ham. *)
Lemma predict_single_label sys self f :
  readable sys f →
  ((num_train_hams self = 0)%nat → (0 < num_train_spams self)%nat →
   predict sys self f = Ok SPAM_LABEL) ∧
  ((num_train_spams self = 0)%nat → (0 < num_train_hams self)%nat →
   predict sys self f = Ok HAM_LABEL).
Proof.
  intros Hr. destruct (word_set_readable sys f Hr) as [X HX]. split.
  - intros Hh Hs. rewrite (predict_scores sys self f X) by (done || lia).
    unfold score. rewrite Hh. simpl Nat.eqb.
    by destruct (Nat.eqb_spec (num_train_spams self) 0); [lia |].
  - intros Hs Hh. rewrite (predict_scores sys self f X) by (done || lia).
    unfold score. rewrite Hs. simpl Nat.eqb.
    by destruct (Nat.eqb (num_train_hams self) 0).
Qed.

(** X19: a state trained on spam documents only counts every document as
    spam, so its accuracy is the share of the spam collection in the
    evaluated documents; a state trained on ham documents only gives the
    share of the ham collection. *)
Theorem accuracy_single_label sys self hams spams :
  Forall (readable sys) hams → Forall (readable sys) spams →
  (0 < length hams + length spams)%nat →
  ((num_train_hams self = 0)%nat → (0 < num_train_spams self)%nat →
   accuracy sys self hams spams
   = Ok (Float.Fin (INR (length spams) / INR (length hams + length spams)))) ∧
  ((num_train_spams self = 0)%nat → (0 < num_train_hams self)%nat →
   accuracy sys self hams spams
   = Ok (Float.Fin (INR (length hams) / INR (length hams + length spams)))).
Proof.
  intros Hh Hs Hlen.
  assert (Hnone : ∀ label other files,
            String.eqb other label = false →
            (∀ f, f ∈ files → predict sys self f = Ok other) →
            hits sys self label files = 0%nat).
  { intros label other files Hne Hall. induction files as [|f files IH];
      [done |].
    rewrite hits_cons, (Hall f) by (by left). rewrite Hne, IH; [done |].
    intros f' Hf'. apply Hall. by right. }
  assert (Hrd : ∀ files f, Forall (readable sys) files → f ∈ files →
                readable sys f).
  { intros files f Hall Hf. rewrite Forall_forall in Hall. by apply Hall. }
  split; intros H0 Hpos; unfold accuracy;
    rewrite (count_correct_hits sys self _ hams) by (done || lia);
    rewrite bind_ok, (count_correct_hits sys self _ spams) by (done || lia);
    rewrite bind_ok, truediv_ok by lia; simpl Nat.add.
  - assert (hits sys self HAM_LABEL hams = 0%nat) as ->.
    { apply (Hnone HAM_LABEL SPAM_LABEL); [done |]. intros f Hf.
      by apply (proj1 (predict_single_label sys self f (Hrd hams f Hh Hf))). }
    assert (hits sys self SPAM_LABEL spams = length spams) as ->; [|done].
    apply hits_all. intros f Hf.
    by apply (proj1 (predict_single_label sys self f (Hrd spams f Hs Hf))).
  - assert (hits sys self SPAM_LABEL spams = 0%nat) as ->.
    { apply (Hnone SPAM_LABEL HAM_LABEL); [done |]. intros f Hf.
      by apply (proj2 (predict_single_label sys self f (Hrd spams f Hs Hf))). }
    assert (hits sys self HAM_LABEL hams = length hams) as ->;
      [|by rewrite Nat.add_0_r].
    apply hits_all. intros f Hf.
    by apply (proj2 (predict_single_label sys self f (Hrd hams f Hh Hf))).
Qed.

Lemma accuracy_single_label_witness :
  accuracy corpus (fit corpus init [] ["data/train/spam/s1.txt"]).1
           ["data/test/ham/h2.txt"] ["data/test/spam/s2.txt"]
  = Ok (Float.Fin (INR 1 / INR 2)) ∧
  accuracy corpus (fit corpus init ["data/train/ham/h1.txt"] []).1
           ["data/test/ham/h2.txt"] ["data/test/spam/s2.txt"]
  = Ok (Float.Fin (INR 1 / INR 2)).
Proof.
  split.
  - apply (proj1 (accuracy_single_label corpus
                    (fit corpus init [] ["data/train/spam/s1.txt"]).1
                    ["data/test/ham/h2.txt"] ["data/test/spam/s2.txt"]
                    ltac:(repeat constructor; eexists; reflexivity)
                    ltac:(repeat constructor; eexists; reflexivity)
                    ltac:(simpl; lia))).
    + reflexivity.
    + vm_compute. lia.
  - apply (proj2 (accuracy_single_label corpus
                    (fit corpus init ["data/train/ham/h1.txt"] []).1
                    ["data/test/ham/h2.txt"] ["data/test/spam/s2.txt"]
                    ltac:(repeat constructor; eexists; reflexivity)
                    ltac:(repeat constructor; eexists; reflexivity)
                    ltac:(simpl; lia))).
    + reflexivity.
    + vm_compute. lia.
Defined.

(** ** More on the corpus loader *)

Lemma append_assoc (a b c : string) : (a ++ b) ++ c = a ++ (b ++ c).
Proof.
  induction a as [|x a IH]; [done |]. rewrite !append_cons. by rewrite IH.
Qed.

Lemma endswith_sep_app x g :
  g ≠ "" → Path.endswith_sep (x ++ g) = Path.endswith_sep g.
Proof.
  intros Hg. induction x as [|c x IH]; [done |].
  rewrite append_cons. simpl. rewrite IH.
  destruct (x ++ g) as [|d s] eqn:Heq; [|done].
  destruct x; [by simpl in Heq | done].
Qed.

Lemma join1_relative path b :
  relative b → Path.join1 path b = dir_prefix path ++ b.
Proof.
  intros Hb. unfold Path.join1, dir_prefix. rewrite Hb.
  destruct (String.eqb path "" || Path.endswith_sep path); [done |].
  by rewrite append_assoc.
Qed.

Lemma dir_prefix_app x g :
  g ≠ "" → Path.endswith_sep g = false → dir_prefix (x ++ g) = x ++ g ++ "/".
Proof.
  intros Hg Hend. unfold dir_prefix. rewrite endswith_sep_app, Hend by done.
  assert (String.eqb (x ++ g) "" = false) as ->.
  { apply String.eqb_neq. destruct x; [done | by rewrite append_cons]. }
  simpl. apply append_assoc.
Qed.

(** The path of a document, for a group and a label that are plain names. *)
Lemma join_document path group label name :
  relative group → group ≠ "" → Path.endswith_sep group = false →
  relative label → label ≠ "" → Path.endswith_sep label = false →
  Path.join path [group; label] = dir_prefix path ++ group ++ "/" ++ label ∧
  (relative name →
   Path.join path [group; label; name]
   = dir_prefix path ++ group ++ "/" ++ label ++ "/" ++ name).
Proof.
  intros Hg1 Hg2 Hg3 Hl1 Hl2 Hl3. unfold Path.join. simpl.
  rewrite (join1_relative path group) by done.
  rewrite (join1_relative _ label) by done.
  rewrite dir_prefix_app by done. split.
  - by rewrite !append_assoc.
  - intros Hn. rewrite (join1_relative _ name) by done.
    rewrite <- append_assoc, dir_prefix_app by done.
    by rewrite !append_assoc.
Qed.

Lemma documents_under sys path group label names :
  relative group → group ≠ "" → Path.endswith_sep group = false →
  relative label → label ≠ "" → Path.endswith_sep label = false →
  listdir sys (Path.join path [group; label]) = Some names →
  listdir sys (dir_prefix path ++ group ++ "/" ++ label) = Some names ∧
  (Forall relative names →
   documents sys path group label
   = under (dir_prefix path ++ group ++ "/" ++ label ++ "/") names).
Proof.
  intros Hg1 Hg2 Hg3 Hl1 Hl2 Hl3 Hlist. unfold documents. rewrite Hlist.
  destruct (join_document path group label "" Hg1 Hg2 Hg3 Hl1 Hl2 Hl3)
    as [Hdir _].
  split; [by rewrite <- Hdir |]. intros Hrel. unfold under.
  apply list_fmap_ext. intros i name Hname.
  destruct (join_document path group label name Hg1 Hg2 Hg3 Hl1 Hl2 Hl3)
    as [_ Hdoc].
  rewrite Hdoc; [by rewrite !append_assoc |].
  rewrite Forall_forall in Hrel. apply Hrel.
  by eapply list_elem_of_lookup_2.
Qed.

(** X20: the identifiers [load_data] returns are full paths. Each of the
    four collections is the listing of its directory, in the listing's
    order and with its length, every name (none starting with "/", as the
    names of a listing are) put after the root path, a "/" unless the root
    path is empty or ends with one, and "train/ham/", "train/spam/",
    "test/ham/" or "test/spam/". *)
Theorem load_data_paths sys path train_hams train_spams test_hams test_spams :
  load_data sys path = Ok (train_hams, train_spams, test_hams, test_spams) →
  ∃ n1 n2 n3 n4,
    listdir sys (dir_prefix path ++ "train/ham") = Some n1 ∧
    listdir sys (dir_prefix path ++ "train/spam") = Some n2 ∧
    listdir sys (dir_prefix path ++ "test/ham") = Some n3 ∧
    listdir sys (dir_prefix path ++ "test/spam") = Some n4 ∧
    (Forall relative n1 →
     train_hams = under (dir_prefix path ++ "train/ham/") n1) ∧
    (Forall relative n2 →
     train_spams = under (dir_prefix path ++ "train/spam/") n2) ∧
    (Forall relative n3 →
     test_hams = under (dir_prefix path ++ "test/ham/") n3) ∧
    (Forall relative n4 →
     test_spams = under (dir_prefix path ++ "test/spam/") n4).
Proof.
  intros Hload.
  destruct (load_data_cases sys path) as [[Hshape Hok] | [_ [Herr | Herr]]];
    [|congruence..].
  rewrite Hok in Hload. injection Hload as <- <- <- <-.
  destruct Hshape as (_ & _ & _ & [n1 H1] & [n2 H2] & [n3 H3] & [n4 H4]).
  exists n1, n2, n3, n4.
  destruct (documents_under sys path "train" "ham" n1) as [? ?]; try done.
  destruct (documents_under sys path "train" "spam" n2) as [? ?]; try done.
  destruct (documents_under sys path "test" "ham" n3) as [? ?]; try done.
  destruct (documents_under sys path "test" "spam" n4) as [? ?]; try done.
Qed.

Lemma load_data_paths_witness :
  ∃ n1 n2 n3 n4,
    listdir corpus (dir_prefix "data/" ++ "train/ham") = Some n1 ∧
    listdir corpus (dir_prefix "data/" ++ "train/spam") = Some n2 ∧
    listdir corpus (dir_prefix "data/" ++ "test/ham") = Some n3 ∧
    listdir corpus (dir_prefix "data/" ++ "test/spam") = Some n4 ∧
    (Forall relative n1 →
     ["data/train/ham/h1.txt"] = under (dir_prefix "data/" ++ "train/ham/") n1) ∧
    (Forall relative n2 →
     ["data/train/spam/s1.txt"]
     = under (dir_prefix "data/" ++ "train/spam/") n2) ∧
    (Forall relative n3 →
     ["data/test/ham/h2.txt"] = under (dir_prefix "data/" ++ "test/ham/") n3) ∧
    (Forall relative n4 →
     ["data/test/spam/s2.txt"] = under (dir_prefix "data/" ++ "test/spam/") n4).
Proof.
  apply (load_data_paths corpus "data/"). reflexivity.
Defined.

(** X21: the root is checked first. [load_data] raises the error of
    [os.listdir] when the root cannot be listed, and AssertionError when
    the root can be listed and holds anything else than exactly "train" and
    "test", whatever else the file system holds. *)
Theorem load_data_root sys path :
  (listdir sys path = None → load_data sys path = Raise OSError) ∧
  (∀ names, listdir sys path = Some names →
            ¬ (∀ x, x ∈ names ↔ x ∈ ["train"; "test"]) →
            load_data sys path = Raise AssertionError).
Proof.
  split.
  - intros H. unfold load_data, os_listdir. by rewrite H.
  - intros names H Hn. unfold load_data, os_listdir. rewrite H, bind_ok.
    destruct (bool_decide (set_of_list names = set_of_list ["test"; "train"]))
      eqn:Hb; [|done].
    exfalso. apply Hn. intros x.
    apply same_names with (x := x) in Hb. rewrite Hb, !elem_of_cons. tauto.
Qed.

Lemma load_data_root_witness :
  load_data (mk_os [] []) "data/" = Raise OSError ∧
  load_data (mk_os [] [("data/", ["train"; "test"; ".DS_Store"])]) "data/"
  = Raise AssertionError.
Proof.
  split.
  - apply (proj1 (load_data_root (mk_os [] []) "data/")). reflexivity.
  - apply (proj2 (load_data_root
                    (mk_os [] [("data/", ["train"; "test"; ".DS_Store"])])
                    "data/") ["train"; "test"; ".DS_Store"]).
    + reflexivity.
    + intros H. specialize (H ".DS_Store"). rewrite !elem_of_cons in H.
      destruct H as [H _]. destruct H as [H | [H | H]]; auto; try discriminate H.
      by apply not_elem_of_nil in H.
Defined.

(** ** The script *)

Lemma accuracy_value sys self hams spams :
  (0 < num_train_hams self + num_train_spams self)%nat →
  Forall (readable sys) hams → Forall (readable sys) spams →
  (0 < length hams + length spams)%nat →
  ∃ a, accuracy sys self hams spams = Ok (Float.Fin a) ∧ (0 <= a <= 1)%R.
Proof.
  intros Htot Hh Hs Hlen.
  pose proof (hits_le sys self HAM_LABEL hams).
  pose proof (hits_le sys self SPAM_LABEL spams).
  eexists. split.
  - unfold accuracy. rewrite (count_correct_hits sys self _ hams) by done.
    rewrite bind_ok, (count_correct_hits sys self _ spams) by done.
    rewrite bind_ok. apply truediv_ok. lia.
  - simpl Nat.add.
    assert (0 < INR (length hams + length spams))%R as Hpos
      by (apply lt_0_INR; lia).
    assert (INR (hits sys self HAM_LABEL hams + hits sys self SPAM_LABEL spams)
            <= INR (length hams + length spams))%R as Hle
      by (apply le_INR; lia).
    pose proof (pos_INR (hits sys self HAM_LABEL hams
                         + hits sys self SPAM_LABEL spams)).
    split.
    + by apply Rle_mult_inv_pos.
    + apply (Rmult_le_reg_r (INR (length hams + length spams))); [done |].
      unfold Rdiv. rewrite Rmult_assoc, Rinv_l by lra. lra.
Qed.

Ltac has_shape :=
  unfold corpus_shape, lists_exactly;
  repeat split; try (eexists; reflexivity);
  (eexists; split; [reflexivity |]; intros x; rewrite !elem_of_cons; tauto).

(** X22: the script runs to its end on a corpus of the expected layout
    whose documents can all be read, with at least one training document
    and at least one test document: it prints the training accuracy, then
    the test accuracy, both between 0 and 1. *)
Theorem main_success sys :
  corpus_shape sys "data/" →
  Forall (readable sys) (documents sys "data/" "train" "ham") →
  Forall (readable sys) (documents sys "data/" "train" "spam") →
  Forall (readable sys) (documents sys "data/" "test" "ham") →
  Forall (readable sys) (documents sys "data/" "test" "spam") →
  (0 < length (documents sys "data/" "train" "ham")
       + length (documents sys "data/" "train" "spam"))%nat →
  (0 < length (documents sys "data/" "test" "ham")
       + length (documents sys "data/" "test" "spam"))%nat →
  ∃ a1 a2,
    main sys = ([("Train Accuracy: ", Float.Fin a1);
                 ("Test  Accuracy: ", Float.Fin a2)], Ok tt) ∧
    (0 <= a1 <= 1)%R ∧ (0 <= a2 <= 1)%R.
Proof.
  intros Hshape Hr1 Hr2 Hr3 Hr4 Htrain Htest.
  destruct (load_data_cases sys "data/") as [[_ Hok] | [Hn _]]; [|done].
  destruct (fit_ok sys _ _ Hr1 Hr2) as (dh & ds & _ & _ & Hfit).
  unfold main. rewrite Hok, Hfit.
  destruct (accuracy_value sys
              {| num_train_hams := length (documents sys "data/" "train" "ham");
                 num_train_spams := length (documents sys "data/" "train" "spam");
                 word_counts_spam := ds; word_counts_ham := dh |}
              (documents sys "data/" "train" "ham")
              (documents sys "data/" "train" "spam"))
    as (a1 & -> & Ha1); try done.
  destruct (accuracy_value sys
              {| num_train_hams := length (documents sys "data/" "train" "ham");
                 num_train_spams := length (documents sys "data/" "train" "spam");
                 word_counts_spam := ds; word_counts_ham := dh |}
              (documents sys "data/" "test" "ham")
              (documents sys "data/" "test" "spam"))
    as (a2 & -> & Ha2); try done.
  by exists a1, a2.
Qed.

Lemma main_success_witness :
  ∃ a1 a2,
    main corpus = ([("Train Accuracy: ", Float.Fin a1);
                    ("Test  Accuracy: ", Float.Fin a2)], Ok tt) ∧
    (0 <= a1 <= 1)%R ∧ (0 <= a2 <= 1)%R.
Proof.
  apply main_success.
  - has_shape.
  - repeat constructor; eexists; reflexivity.
  - repeat constructor; eexists; reflexivity.
  - repeat constructor; eexists; reflexivity.
  - repeat constructor; eexists; reflexivity.
  - vm_compute. lia.
  - vm_compute. lia.
Defined.

(** X23: on a corpus of the expected layout with no training document at
    all, the script prints nothing and stops with ZeroDivisionError: the
    training itself passes, the accuracy on the empty training set
    divides by 0. *)
Theorem main_without_training sys :
  corpus_shape sys "data/" →
  documents sys "data/" "train" "ham" = [] →
  documents sys "data/" "train" "spam" = [] →
  main sys = ([], Raise ZeroDivisionError).
Proof.
  intros Hshape H1 H2.
  destruct (load_data_cases sys "data/") as [[_ Hok] | [Hn _]]; [|done].
  unfold main. rewrite Hok, H1, H2. reflexivity.
Qed.

Lemma main_without_training_witness :
  main corpus_without_train = ([], Raise ZeroDivisionError).
Proof.
  apply main_without_training.
  - has_shape.
  - reflexivity.
  - reflexivity.
Defined.

(** X24: on a corpus of the expected layout with readable training
    documents, at least one, and no test document, the script prints the
    training accuracy and then stops with ZeroDivisionError. *)
Theorem main_without_test sys :
  corpus_shape sys "data/" →
  Forall (readable sys) (documents sys "data/" "train" "ham") →
  Forall (readable sys) (documents sys "data/" "train" "spam") →
  (0 < length (documents sys "data/" "train" "ham")
       + length (documents sys "data/" "train" "spam"))%nat →
  documents sys "data/" "test" "ham" = [] →
  documents sys "data/" "test" "spam" = [] →
  ∃ a, main sys = ([("Train Accuracy: ", Float.Fin a)],
                   Raise ZeroDivisionError) ∧
       (0 <= a <= 1)%R.
Proof.
  intros Hshape Hr1 Hr2 Htrain H3 H4.
  destruct (load_data_cases sys "data/") as [[_ Hok] | [Hn _]]; [|done].
  destruct (fit_ok sys _ _ Hr1 Hr2) as (dh & ds & _ & _ & Hfit).
  unfold main. rewrite Hok, Hfit, H3, H4.
  destruct (accuracy_value sys
              {| num_train_hams := length (documents sys "data/" "train" "ham");
                 num_train_spams := length (documents sys "data/" "train" "spam");
                 word_counts_spam := ds; word_counts_ham := dh |}
              (documents sys "data/" "train" "ham")
              (documents sys "data/" "train" "spam"))
    as (a1 & -> & Ha1); try done.
  by exists a1.
Qed.

Lemma main_without_test_witness :
  ∃ a, main corpus_without_test = ([("Train Accuracy: ", Float.Fin a)],
                                   Raise ZeroDivisionError) ∧
       (0 <= a <= 1)%R.
Proof.
  apply main_without_test.
  - has_shape.
  - repeat constructor; eexists; reflexivity.
  - repeat constructor; eexists; reflexivity.
  - vm_compute. lia.
  - reflexivity.
  - reflexivity.
Defined.
